(** * Currency-Formatted-Input

    A shallow embedding of [src/Currency-Formatted-Input.tsx], the
    [FormattedInput] React component, and the properties of its parser,
    manual formatter, clamping and focus handling.

    Modelling choices.
    - JavaScript strings are [string]s; the component only distinguishes
      ASCII digits, the decimal point and "everything else".
    - The numbers of the props and of the clamping are exact rationals [Q];
      [NaN] only arises as the result of [parseFloat] and is modelled by
      [None].  [parseFloat] gives the exact decimal number it reads;
      [parseFloat64] rounds it to binary64 as the runtime does, for the
      properties that depend on the rounding.
    - The component state ([useState]) is a record threaded through the
      handlers; a call of the [setValue] callback is the [option Q] a
      handler returns next to the new state.
    - [Intl.NumberFormat] belongs to the runtime: it is an interface
      ([IntlNumberFormat]) the handlers are parametric in. *)

From Stdlib Require Import ZArith QArith Qabs Qround Qminmax Bool List Ascii String.
From Stdlib Require Import DecimalString Lia.
From Stdlib Require SpecFloat.
Import ListNotations.
Local Open Scope string_scope.

(** ** Character classes of the regular expressions *)

(** [\d] (no unicode flag): the ASCII digits. *)
Definition isDigit (c : ascii) : bool :=
  let n := nat_of_ascii c in (48 <=? n)%nat && (n <=? 57)%nat.

(** [\w], the class behind [\b] and [\B]: letters, digits, underscore. *)
Definition isWord (c : ascii) : bool :=
  let n := nat_of_ascii c in
  isDigit c
  || ((65 <=? n)%nat && (n <=? 90)%nat)
  || ((97 <=? n)%nat && (n <=? 122)%nat)
  || (n =? 95)%nat.

(** [[\d.]], the characters that survive [replace(/[^\d.]/g, "")]. *)
Definition isNumericChar (c : ascii) : bool :=
  isDigit c || (c =? ".")%char.

(** ** String primitives *)

(** [s.replace(/[^\d.]/g, "")] *)
Fixpoint stripNonNumeric (s : string) : string :=
  match s with
  | EmptyString => EmptyString
  | String c s' =>
      if isNumericChar c then String c (stripNonNumeric s')
      else stripNonNumeric s'
  end.

(** [s.split(".")]: the segments between decimal points; never empty. *)
Fixpoint split (s : string) : list string :=
  match s with
  | EmptyString => [EmptyString]
  | String c s' =>
      if (c =? ".")%char then EmptyString :: split s'
      else match split s' with
           | h :: t => String c h :: t
           | [] => [String c EmptyString]
           end
  end.

(** [parts.join(".")] *)
Definition join (parts : list string) : string := String.concat "." parts.

(** [s.slice(0, n)] *)
Definition slice0 (n : nat) (s : string) : string := substring 0 n s.

(** Length of the run of digits at the head of [s]. *)
Fixpoint digitRun (s : string) : nat :=
  match s with
  | EmptyString => 0
  | String c s' => if isDigit c then S (digitRun s') else 0
  end.

(** [s.replace(/\B(?=(\d{3})+(?!\d))/g, ",")].

    The pattern is zero-width.  It matches at a position when [\B] holds
    there and the lookahead finds one or more groups of three digits
    followed by a non-digit or the end.  With [n] the length of the digit
    run that starts at the position, the lookahead succeeds exactly when
    [n] is a positive multiple of three; the next character is then a
    digit, a word character, so [\B] holds exactly when the previous
    character exists and is a word character.  [prevWord] carries that
    fact along the scan. *)
Fixpoint insertSeparatorsFrom (prevWord : bool) (s : string) : string :=
  match s with
  | EmptyString => EmptyString
  | String c s' =>
      let n := digitRun s in
      let rest := String c (insertSeparatorsFrom (isWord c) s') in
      if prevWord && (0 <? n)%nat && (n mod 3 =? 0)%nat
      then String "," rest else rest
  end.

Definition insertSeparators (s : string) : string :=
  insertSeparatorsFrom false s.

(** ** Numbers *)

Definition MAX_SAFE_INTEGER : Q := inject_Z (2 ^ 53 - 1).

Definition Math_floor (x : Q) : Q := inject_Z (Qfloor x).
Definition Math_max (x y : Q) : Q := Qmax x y.
Definition Math_min (x y : Q) : Q := Qmin x y.

Definition digitValue (c : ascii) : Z := Z.of_nat (nat_of_ascii c) - 48.

Fixpoint digitsToZ (acc : Z) (s : string) : Z :=
  match s with
  | EmptyString => acc
  | String c s' => digitsToZ (10 * acc + digitValue c) s'
  end.

Fixpoint pow10 (n : nat) : positive :=
  match n with
  | O => 1%positive
  | S n' => (10 * pow10 n')%positive
  end.

(** The longest prefix of digits, and what follows it. *)
Fixpoint spanDigits (s : string) : string * string :=
  match s with
  | EmptyString => (EmptyString, EmptyString)
  | String c s' =>
      if isDigit c
      then let (d, r) := spanDigits s' in (String c d, r)
      else (EmptyString, s)
  end.

(** [parseFloat(s)] together with the [isNaN] test on its result: [None] is
    [NaN].  The longest prefix [digits [. digits]] is read; at least one
    digit is needed.  Signs, exponents, leading blanks and ["Infinity"] are
    left out: the component only parses strings that went through
    [stripNonNumeric].  The result is the exact decimal number read; the
    runtime returns that number rounded to binary64, [parseFloat64]. *)
Definition parseFloat (s : string) : option Q :=
  let (ip, rest) := spanDigits s in
  let fp := match rest with
            | String c r => if (c =? ".")%char then fst (spanDigits r)
                            else EmptyString
            | EmptyString => EmptyString
            end in
  if (ip ++ fp =? "") then None
  else Some (digitsToZ 0 (ip ++ fp) # pow10 (String.length fp)).

(** Rounding to the nearest binary64 number, ties to even: the quotient of
    numerator and denominator, correctly rounded, with overflow to
    infinity and gradual underflow. *)
Definition round64 (x : Q) : SpecFloat.spec_float :=
  match Qnum x with
  | Z0 => SpecFloat.S754_zero false
  | Zpos m =>
      SpecFloat.SFdiv 53 1024
        (SpecFloat.S754_finite false m 0) (SpecFloat.S754_finite false (Qden x) 0)
  | Zneg m =>
      SpecFloat.SFdiv 53 1024
        (SpecFloat.S754_finite true m 0) (SpecFloat.S754_finite false (Qden x) 0)
  end.

(** [parseFloat(s)] as the runtime computes it: the decimal number read,
    rounded to binary64. *)
Definition parseFloat64 (s : string) : option SpecFloat.spec_float :=
  option_map round64 (parseFloat s).

(** The number a finite binary64 value stands for, in lowest terms. *)
Definition number64 (x : SpecFloat.spec_float) : option Q :=
  match x with
  | SpecFloat.S754_zero _ => Some 0
  | SpecFloat.S754_finite sg m e =>
      let a := if sg then Zneg m else Zpos m in
      Some (Qred (match e with
                  | Z0 => inject_Z a
                  | Zpos k => inject_Z (a * 2 ^ Zpos k)
                  | Zneg k => a # (2 ^ k)
                  end))
  | _ => None
  end.

(** ** Props and state *)

Record FormattedInputProps := {
  value : Q;
  minValue : Q;
  maxValue : Q;
  currency : string;
  showCents : bool;
  showCurrencySymbol : bool;
  placeholder : string
}.

(** The defaults of the destructured props, for a given [value]. *)
Definition defaultProps (v : Q) : FormattedInputProps := {|
  value := v;
  minValue := 0;
  maxValue := MAX_SAFE_INTEGER;
  currency := "USD";
  showCents := false;
  showCurrencySymbol := true;
  placeholder := ""
|}.

(** The two [useState] cells. *)
Record ComponentState := {
  displayValue : string;
  isFocused : bool
}.

Definition initialState : ComponentState :=
  {| displayValue := ""; isFocused := false |}.

Definition setDisplayValue (d : string) (st : ComponentState) : ComponentState :=
  {| displayValue := d; isFocused := isFocused st |}.

Definition setIsFocused (b : bool) (st : ComponentState) : ComponentState :=
  {| displayValue := displayValue st; isFocused := b |}.

(** ** The locale formatter *)

Inductive NumberStyle := currencyStyle | decimalStyle.

Record NumberFormatOptions := {
  style : NumberStyle;
  currencyCode : string;
  minimumFractionDigits : nat;
  maximumFractionDigits : nat
}.

(** [new Intl.NumberFormat("en-US", options).format(x)] *)
Class IntlNumberFormat := intlFormat : NumberFormatOptions -> Q -> string.

(** The options object built, identically, by the effect and by the focus
    and blur handlers. *)
Definition formatterOptions (p : FormattedInputProps) : NumberFormatOptions := {|
  style := if showCurrencySymbol p then currencyStyle else decimalStyle;
  currencyCode := currency p;
  minimumFractionDigits := if showCents p then 2 else 0;
  maximumFractionDigits := if showCents p then 2 else 0
|}.

(** ** The component *)

(** [addCommas] *)
Definition addCommas (num : string) : string :=
  match split num with
  | p0 :: rest => join (insertSeparators p0 :: rest)
  | [] => EmptyString
  end.

(** The [formattedValue] that [formatForDisplay] derives from its
    [cleanValue]. *)
Definition formattedValueOf (p : FormattedInputProps) (cleanValue : string) : string :=
  let parts := split cleanValue in
  if showCents p
  then nth 0 parts "" ++
       (if (1 <? List.length parts)%nat
        then "." ++ slice0 2 (nth 1 parts "") else "")
  else nth 0 parts "".

(** [formatForDisplay] *)
Definition formatForDisplay (p : FormattedInputProps) (text : string) : string :=
  let cleanValue := stripNonNumeric text in
  if (cleanValue =? "") then ""
  else
    let formattedValue := formattedValueOf p cleanValue in
    if negb (showCurrencySymbol p) then addCommas formattedValue
    else "$" ++ addCommas formattedValue.

(** The [cleanValue] computed at the head of [handleChange]. *)
Definition cleanInput (p : FormattedInputProps) (inputValue : string) : string :=
  let numericValue := stripNonNumeric inputValue in
  let parts := split numericValue in
  if showCents p
  then nth 0 parts "" ++
       (if (1 <? List.length parts)%nat then "." ++ nth 1 parts "" else "")
  else nth 0 parts "".

(** [handleChange]: the new state and the argument of [setValue], if the
    callback is called. *)
Definition handleChange (p : FormattedInputProps) (st : ComponentState)
    (inputValue : string) : ComponentState * option Q :=
  let cleanValue := cleanInput p inputValue in
  let st' := setDisplayValue (formatForDisplay p cleanValue) st in
  if (cleanValue =? "") then (st', Some 0)
  else
    match parseFloat cleanValue with
    | Some parsedValue =>
        let clampedValue := Math_min (maxValue p) (Math_max (minValue p) parsedValue) in
        (st', Some (if showCents p then clampedValue else Math_floor clampedValue))
    | None => (st', None)
    end.

Section Handlers.

Context {F : IntlNumberFormat}.

(** The body of the [useEffect] that follows [value], [showCents] and
    [isFocused].  [value] is a required number, so the test
    [value !== undefined] of the second branch always holds. *)
Definition displayEffect (p : FormattedInputProps) (st : ComponentState)
    : ComponentState :=
  if negb (isFocused st) && Qeq_bool (value p) 0 && (displayValue st =? "")
  then setDisplayValue "" st
  else setDisplayValue
         (if Qeq_bool (value p) 0 && (displayValue st =? "") then ""
          else intlFormat (formatterOptions p) (value p)) st.

(** [handleFocus]; the forwarded [onFocus] and the deferred cursor move
    do not touch the state. *)
Definition handleFocus (p : FormattedInputProps) (st : ComponentState)
    : ComponentState :=
  let st := setIsFocused true st in
  if Qeq_bool (value p) 0 then setDisplayValue "$" st
  else setDisplayValue (intlFormat (formatterOptions p) (value p)) st.

(** [handleBlur]; the test on [displayValue] reads the state of the
    render the handler was created in. *)
Definition handleBlur (p : FormattedInputProps) (st : ComponentState)
    : ComponentState :=
  let st' := setIsFocused false st in
  if Qeq_bool (value p) 0 && (displayValue st =? "$")
  then setDisplayValue "" st'
  else if negb (Qeq_bool (value p) 0)
  then setDisplayValue (intlFormat (formatterOptions p) (value p)) st'
  else st'.

End Handlers.

(** ** Reference definitions the properties are stated against *)

(** Grouping as the specification words it: a separator every three digits
    counted from the right.  [chunk3] works on the reversed digits. *)
Fixpoint chunk3 (l : list ascii) : list ascii :=
  match l with
  | a :: b :: c :: rest =>
      match rest with
      | [] => l
      | _ :: _ => a :: b :: c :: ","%char :: chunk3 rest
      end
  | _ => l
  end.

Definition groupFromRight (digits : string) : string :=
  string_of_list_ascii (rev (chunk3 (rev (list_ascii_of_string digits)))).

(** A string of digits only. *)
Fixpoint allDigits (s : string) : bool :=
  match s with
  | EmptyString => true
  | String c s' => isDigit c && allDigits s'
  end.

(** A canonical numeric string: an integer portion and, optionally, a
    decimal point followed by a fractional portion. *)
Definition canonical (ip : string) (fp : option string) : string :=
  match fp with
  | Some f => ip ++ "." ++ f
  | None => ip
  end.

(** Truncation of a number to [k] fractional digits. *)
Definition truncateTo (k : nat) (x : Q) : Q :=
  inject_Z (Qfloor (x * inject_Z (Zpos (pow10 k)))) / inject_Z (Zpos (pow10 k)).

(** Equality of parse results: both [NaN], or equal numbers. *)
Definition sameNumber (a b : option Q) : Prop :=
  match a, b with
  | Some x, Some y => x == y
  | None, None => True
  | _, _ => False
  end.

(** What [formatForDisplay] puts after the grouped integer portion. *)
Definition fractionSuffix (p : FormattedInputProps) (fp : option string) : string :=
  match fp with
  | Some f => if showCents p then "." ++ slice0 2 f else ""
  | None => ""
  end.

Definition symbolPrefix (p : FormattedInputProps) : string :=
  if showCurrencySymbol p then "$" else "".

(** The first character is a decimal point. *)
Definition startsWithPoint (s : string) : bool :=
  match s with
  | String c _ => (c =? ".")%char
  | EmptyString => false
  end.

(** A string made of digits and decimal points only. *)
Fixpoint allNumeric (s : string) : bool :=
  match s with
  | EmptyString => true
  | String c s' => isNumericChar c && allNumeric s'
  end.

(** An optional fractional portion made of digits. *)
Definition optDigits (fp : option string) : bool :=
  match fp with
  | Some f => allDigits f
  | None => true
  end.

(** The digits of an optional fractional portion. *)
Definition fractionDigits (fp : option string) : string :=
  match fp with Some f => f | None => "" end.

(** The fraction [formatForDisplay] shows: two digits at most with cents,
    none without. *)
Definition shownFraction (p : FormattedInputProps) (fp : option string) : option string :=
  if showCents p then option_map (slice0 2) fp else None.

(** The fraction the parser keeps: all of the second segment with cents,
    nothing without. *)
Definition keptFraction (p : FormattedInputProps) (rest : list string) : option string :=
  if showCents p then hd_error rest else None.

(** The separator test of [insertSeparatorsFrom] on a run of [n] digits. *)
Definition groupBoundary (n : nat) : bool := (0 <? n)%nat && (n mod 3 =? 0)%nat.

(** Props with the default currency and placeholder. *)
Definition propsWith (v lo hi : Q) (cents symbol : bool) : FormattedInputProps := {|
  value := v;
  minValue := lo;
  maxValue := hi;
  currency := "USD";
  showCents := cents;
  showCurrencySymbol := symbol;
  placeholder := ""
|}.

(** The number [handleChange] passes to [setValue], if any. *)
Definition reported (p : FormattedInputProps) (inputValue : string) : option Q :=
  snd (handleChange p initialState inputValue).

(** ** An instance of the formatter

    The [en-US] rendering for the currency [USD], used to run the handlers
    on closed examples: sign, ["$"] in currency style, the integer portion
    grouped by three, and the fraction rounded half away from zero to
    [maximumFractionDigits], trailing zeros dropped down to
    [minimumFractionDigits].  Currencies other than USD render their code. *)

(** The [k] low decimal digits of [n], least significant first. *)
Fixpoint lowDigits (k : nat) (n : Z) : list ascii :=
  match k with
  | O => []
  | S k' => ascii_of_nat (48 + Z.to_nat (n mod 10)) :: lowDigits k' (n / 10)
  end.

Fixpoint trimZeros (keep : nat) (revDigits : list ascii) : list ascii :=
  match revDigits with
  | c :: r =>
      if (c =? "0")%char && (keep <? List.length revDigits)%nat
      then trimZeros keep r else revDigits
  | [] => []
  end.

Definition enUS : IntlNumberFormat := fun o x =>
  let k := maximumFractionDigits o in
  let scale := Zpos (pow10 k) in
  let n := Qfloor (Qabs x * inject_Z scale + (1 # 2)) in
  let sign := match Qcompare x 0 with Lt => "-" | _ => "" end in
  let symbol := match style o with
                | currencyStyle =>
                    if (currencyCode o =? "USD") then "$" else currencyCode o ++ " "
                | decimalStyle => ""
                end in
  let integer := NilZero.string_of_uint (N.to_uint (Z.to_N (n / scale))) in
  let fraction :=
    string_of_list_ascii
      (rev (trimZeros (minimumFractionDigits o) (lowDigits k (n mod scale)))) in
  sign ++ symbol ++ groupFromRight integer
       ++ (if (fraction =? "") then "" else "." ++ fraction).

(** ** Further reference definitions *)

(** The text with every comma deleted. *)
Fixpoint removeCommas (s : string) : string :=
  match s with
  | EmptyString => EmptyString
  | String c s' =>
      if (c =? ",")%char then removeCommas s' else String c (removeCommas s')
  end.

(** The groups of characters between commas; never empty. *)
Fixpoint commaGroups (s : string) : list string :=
  match s with
  | EmptyString => [EmptyString]
  | String c s' =>
      if (c =? ",")%char then EmptyString :: commaGroups s'
      else match commaGroups s' with
           | h :: t => String c h :: t
           | [] => [String c EmptyString]
           end
  end.

(** A text without a decimal point. *)
Fixpoint noPoint (s : string) : bool :=
  match s with
  | EmptyString => true
  | String c s' => negb (c =? ".")%char && noPoint s'
  end.

(** The display and the report of a change event, whatever the state. *)
Definition shown (p : FormattedInputProps) (inputValue : string) : string :=
  displayValue (fst (handleChange p initialState inputValue)).

(** The props after the owner has stored a new [value]. *)
Definition withValue (p : FormattedInputProps) (v : Q) : FormattedInputProps := {|
  value := v;
  minValue := minValue p;
  maxValue := maxValue p;
  currency := currency p;
  showCents := showCents p;
  showCurrencySymbol := showCurrencySymbol p;
  placeholder := placeholder p
|}.

(** * Properties *)

(** ** Characters *)

Lemma isDigit_isNumericChar c : isDigit c = true -> isNumericChar c = true.
Proof. unfold isNumericChar. intros ->. reflexivity. Qed.

Lemma isDigit_isWord c : isDigit c = true -> isWord c = true.
Proof. unfold isWord. intros ->. reflexivity. Qed.

Lemma isDigit_not_point c : isDigit c = true -> (c =? ".")%char = false.
Proof.
  intros H. destruct (Ascii.eqb_spec c "."%char) as [->|]; [discriminate H | reflexivity].
Qed.

Lemma point_isNumericChar : isNumericChar "."%char = true.
Proof. reflexivity. Qed.

(** ** Strings *)

Lemma append_nil_r (s : string) : s ++ "" = s.
Proof. induction s; simpl; congruence. Qed.

Lemma append_assoc (a b c : string) : (a ++ b) ++ c = a ++ b ++ c.
Proof. induction a; simpl; congruence. Qed.

Lemma append_eq_nil (a b : string) : a ++ b = "" -> a = "" /\ b = "".
Proof. destruct a; simpl; [auto | discriminate]. Qed.

Lemma length_append (a b : string) :
  String.length (a ++ b) = (String.length a + String.length b)%nat.
Proof. induction a; simpl; congruence. Qed.

Lemma string_of_list_ascii_app (l m : list ascii) :
  string_of_list_ascii (l ++ m)%list = string_of_list_ascii l ++ string_of_list_ascii m.
Proof. induction l; simpl; congruence. Qed.

Lemma length_list_ascii_of_string (s : string) :
  List.length (list_ascii_of_string s) = String.length s.
Proof. induction s; simpl; congruence. Qed.

Lemma allDigits_allNumeric s : allDigits s = true -> allNumeric s = true.
Proof.
  induction s as [|c s IH]; simpl; [reflexivity|].
  intros [Hc Hs]%andb_prop. rewrite (isDigit_isNumericChar _ Hc). auto.
Qed.

Lemma allNumeric_app a b :
  allNumeric (a ++ b) = allNumeric a && allNumeric b.
Proof. induction a; simpl; [reflexivity|]. rewrite IHa. apply andb_assoc. Qed.

Lemma allDigits_app a b :
  allDigits (a ++ b) = allDigits a && allDigits b.
Proof. induction a; simpl; [reflexivity|]. rewrite IHa. apply andb_assoc. Qed.

Lemma stripNonNumeric_app a b :
  stripNonNumeric (a ++ b) = stripNonNumeric a ++ stripNonNumeric b.
Proof.
  induction a as [|c a IH]; simpl; [reflexivity|].
  destruct (isNumericChar c); simpl; congruence.
Qed.

Lemma stripNonNumeric_allNumeric s : allNumeric (stripNonNumeric s) = true.
Proof.
  induction s as [|c s IH]; simpl; [reflexivity|].
  destruct (isNumericChar c) eqn:E; simpl; [rewrite E|]; auto.
Qed.

Lemma stripNonNumeric_id s : allNumeric s = true -> stripNonNumeric s = s.
Proof.
  induction s as [|c s IH]; simpl; [reflexivity|].
  intros [Hc Hs]%andb_prop. rewrite Hc, IH; auto.
Qed.

Lemma stripNonNumeric_idem s :
  stripNonNumeric (stripNonNumeric s) = stripNonNumeric s.
Proof. apply stripNonNumeric_id, stripNonNumeric_allNumeric. Qed.

Lemma slice0_allDigits n s : allDigits s = true -> allDigits (slice0 n s) = true.
Proof.
  unfold slice0. revert n. induction s as [|c s IH]; intros [|n]; simpl; auto.
  intros [Hc Hs]%andb_prop. rewrite Hc. simpl. auto.
Qed.

Lemma slice0_idem n s : slice0 n (slice0 n s) = slice0 n s.
Proof.
  unfold slice0. revert n. induction s as [|c s IH]; intros [|n]; simpl; auto.
  now rewrite IH.
Qed.

(** [s] is its first [n] characters followed by the rest. *)
Lemma slice0_split n s : exists r, s = slice0 n s ++ r /\
  (String.length (slice0 n s) = n \/ r = "").
Proof.
  unfold slice0. revert n. induction s as [|c s IH]; intros [|n]; simpl.
  - exists "". auto.
  - exists "". auto.
  - exists (String c s). auto.
  - destruct (IH n) as (r & E & H). exists r. split; [congruence|].
    destruct H; auto.
Qed.

(** ** Splitting at decimal points *)

Lemma split_not_nil s : split s <> [].
Proof.
  destruct s as [|c s]; simpl; [discriminate|].
  destruct (c =? ".")%char; [discriminate|]. destruct (split s); discriminate.
Qed.

Lemma join_split s : join (split s) = s.
Proof.
  unfold join. induction s as [|c s IH]; simpl; [reflexivity|].
  destruct (Ascii.eqb_spec c "."%char) as [->|Hc].
  - simpl. destruct (split s) eqn:E; [now destruct (split_not_nil s)|].
    simpl in *. now rewrite IH.
  - destruct (split s) as [|h t] eqn:E; [now destruct (split_not_nil s)|].
    simpl in *. destruct t; simpl in *; congruence.
Qed.

Lemma split_digits_app ip r :
  allDigits ip = true ->
  split (ip ++ r) =
    match split r with h :: t => (ip ++ h) :: t | [] => [ip] end.
Proof.
  induction ip as [|c ip IH]; simpl.
  - intros _. destruct (split r) eqn:E; [now destruct (split_not_nil r)|reflexivity].
  - intros [Hc Hs]%andb_prop. rewrite (isDigit_not_point _ Hc), IH by assumption.
    destruct (split r); reflexivity.
Qed.

Lemma split_digits ip : allDigits ip = true -> split ip = [ip].
Proof.
  intros H. rewrite <- (append_nil_r ip) at 1.
  rewrite split_digits_app by assumption. simpl. now rewrite append_nil_r.
Qed.

Lemma split_digits_point ip r :
  allDigits ip = true -> split (ip ++ "." ++ r) = ip :: split r.
Proof.
  intros H. rewrite split_digits_app by assumption. simpl. now rewrite append_nil_r.
Qed.

Lemma split_allNumeric s :
  allNumeric s = true -> Forall (fun x => allDigits x = true) (split s).
Proof.
  induction s as [|c s IH]; simpl.
  - intros _. repeat constructor.
  - intros [Hc Hs]%andb_prop. specialize (IH Hs).
    destruct (Ascii.eqb_spec c "."%char) as [->|Hne].
    + constructor; [reflexivity | assumption].
    + assert (Hd : isDigit c = true).
      { unfold isNumericChar in Hc. apply orb_prop in Hc as [Hc|Hc]; [assumption|].
        apply Ascii.eqb_eq in Hc. contradiction. }
      destruct (split s) as [|h t]; [repeat constructor; simpl; now rewrite Hd|].
      inversion IH; subst. constructor; [simpl; now rewrite Hd | assumption].
Qed.

(** The view of a string of digits and points that the component works
    with: its segments, all of them digits, joined by points. *)
Lemma numeric_view s :
  allNumeric s = true ->
  exists ip rest,
    split s = ip :: rest /\ s = join (ip :: rest) /\
    allDigits ip = true /\ Forall (fun x => allDigits x = true) rest.
Proof.
  intros H. pose proof (split_allNumeric s H) as HF.
  pose proof (join_split s) as HJ.
  destruct (split s) as [|ip rest] eqn:E; [now destruct (split_not_nil s)|].
  exists ip, rest. inversion HF; subst. auto.
Qed.

Lemma join_cons ip rest :
  join (ip :: rest) =
    ip ++ match rest with [] => "" | _ :: _ => "." ++ join rest end.
Proof.
  unfold join. destruct rest; simpl; [now rewrite append_nil_r | reflexivity].
Qed.

Lemma split_join_digits ip rest :
  allDigits ip = true -> Forall (fun x => allDigits x = true) rest ->
  split (join (ip :: rest)) = ip :: rest.
Proof.
  intros Hip HF. revert ip Hip. induction HF as [|f rest Hf HF IH]; intros ip Hip.
  - unfold join; simpl. now apply split_digits.
  - rewrite join_cons. rewrite split_digits_point by assumption.
    now rewrite IH.
Qed.

(** ** Grouping *)

Lemma digitRun_allDigits s : allDigits s = true -> digitRun s = String.length s.
Proof.
  induction s as [|c s IH]; simpl; [reflexivity|].
  intros [Hc Hs]%andb_prop. rewrite Hc. auto.
Qed.

Lemma groupBoundary_add3 n : groupBoundary (3 + n) = (n mod 3 =? 0)%nat.
Proof.
  unfold groupBoundary.
  replace (3 + n)%nat with (n + 1 * 3)%nat by lia.
  rewrite Nat.Div0.mod_add.
  replace (0 <? n + 1 * 3)%nat with true by (symmetry; apply Nat.ltb_lt; lia).
  reflexivity.
Qed.

Lemma chunk3_snoc l c :
  chunk3 (l ++ [c])%list =
    (chunk3 l ++ (if groupBoundary (List.length l) then [","%char; c] else [c]))%list.
Proof.
  remember (List.length l) as n eqn:Hn. revert l Hn.
  induction n as [n IH] using lt_wf_ind. intros l Hn.
  destruct l as [|a [|b [|d rest]]]; subst n; try reflexivity.
  change (List.length (a :: b :: d :: rest)) with (3 + List.length rest)%nat.
  rewrite groupBoundary_add3.
  destruct rest as [|e rest]; [reflexivity|].
  change ((a :: b :: d :: e :: rest) ++ [c])%list
    with (a :: b :: d :: ((e :: rest) ++ [c]))%list.
  change (chunk3 (a :: b :: d :: (e :: rest) ++ [c])%list)
    with (a :: b :: d :: ","%char :: chunk3 ((e :: rest) ++ [c])%list).
  rewrite (IH (List.length (e :: rest))) by (simpl; lia || reflexivity).
  change (chunk3 (a :: b :: d :: e :: rest))
    with (a :: b :: d :: ","%char :: chunk3 (e :: rest)).
  unfold groupBoundary. simpl (0 <? _)%nat. reflexivity.
Qed.

Lemma groupFromRight_cons c s :
  groupFromRight (String c s) =
    String c ((if groupBoundary (String.length s) then "," else "")
              ++ groupFromRight s).
Proof.
  unfold groupFromRight. simpl list_ascii_of_string. simpl rev.
  rewrite chunk3_snoc, rev_app_distr, string_of_list_ascii_app.
  rewrite length_rev, length_list_ascii_of_string.
  destruct (groupBoundary (String.length s)); reflexivity.
Qed.

Lemma insertSeparatorsFrom_digits s :
  allDigits s = true ->
  insertSeparatorsFrom false s = groupFromRight s /\
  insertSeparatorsFrom true s =
    (if groupBoundary (String.length s) then "," else "") ++ groupFromRight s.
Proof.
  induction s as [|c s IH]; [intros _; split; reflexivity|].
  intros Hall. pose proof Hall as Hall'. simpl in Hall'.
  apply andb_prop in Hall' as [Hc Hs]. destruct (IH Hs) as [_ IHt].
  cbn [insertSeparatorsFrom]. rewrite (digitRun_allDigits _ Hall).
  rewrite (isDigit_isWord _ Hc), IHt, groupFromRight_cons.
  split; [reflexivity|].
  change (true && (0 <? String.length (String c s))%nat
            && (String.length (String c s) mod 3 =? 0)%nat)
    with (groupBoundary (String.length (String c s))).
  destruct (groupBoundary (String.length (String c s))); reflexivity.
Qed.

(** On a string of digits the regular expression of [addCommas] groups
    from the right. *)
Lemma insertSeparators_digits s :
  allDigits s = true -> insertSeparators s = groupFromRight s.
Proof. intros H. apply (insertSeparatorsFrom_digits s H). Qed.

Lemma stripNonNumeric_insertSeparatorsFrom b s :
  stripNonNumeric (insertSeparatorsFrom b s) = stripNonNumeric s.
Proof.
  revert b. induction s as [|c s IH]; intros b; [reflexivity|].
  cbn [insertSeparatorsFrom].
  destruct (b && (0 <? digitRun (String c s))%nat
              && (digitRun (String c s) mod 3 =? 0)%nat);
    simpl; rewrite IH; reflexivity.
Qed.

Lemma addCommas_digits ip : allDigits ip = true -> addCommas ip = groupFromRight ip.
Proof.
  intros H. unfold addCommas. rewrite split_digits by assumption.
  unfold join; simpl. now apply insertSeparators_digits.
Qed.

Lemma addCommas_digits_point ip f :
  allDigits ip = true -> allDigits f = true ->
  addCommas (ip ++ "." ++ f) = groupFromRight ip ++ "." ++ f.
Proof.
  intros Hip Hf. unfold addCommas.
  rewrite split_digits_point, split_digits by assumption.
  unfold join; simpl. now rewrite insertSeparators_digits.
Qed.

Lemma stripNonNumeric_groupFromRight ip :
  allDigits ip = true -> stripNonNumeric (groupFromRight ip) = ip.
Proof.
  intros H. rewrite <- insertSeparators_digits by assumption.
  unfold insertSeparators. rewrite stripNonNumeric_insertSeparatorsFrom.
  now apply stripNonNumeric_id, allDigits_allNumeric.
Qed.

(** ** The manual formatter *)

Lemma fractionSuffix_numeric p fp :
  optDigits fp = true -> allNumeric (fractionSuffix p fp) = true.
Proof.
  destruct fp as [f|]; simpl; [|reflexivity].
  intros H. destruct (showCents p); [|reflexivity].
  simpl. now apply allDigits_allNumeric, slice0_allDigits.
Qed.

Lemma hd_error_digits rest :
  Forall (fun x => allDigits x = true) rest -> optDigits (hd_error rest) = true.
Proof. intros [|f rest' Hf _]; simpl; auto. Qed.

Lemma addCommas_suffix p ip fp :
  allDigits ip = true -> optDigits fp = true ->
  addCommas (ip ++ fractionSuffix p fp) = groupFromRight ip ++ fractionSuffix p fp.
Proof.
  intros Hip Hfp. destruct fp as [f|]; simpl in *.
  - destruct (showCents p).
    + apply addCommas_digits_point; [assumption | now apply slice0_allDigits].
    + rewrite !append_nil_r. now apply addCommas_digits.
  - rewrite !append_nil_r. now apply addCommas_digits.
Qed.

Lemma formattedValueOf_segments p c ip rest :
  split c = ip :: rest ->
  formattedValueOf p c = ip ++ fractionSuffix p (hd_error rest).
Proof.
  intros E. unfold formattedValueOf. rewrite E.
  destruct rest as [|f rest']; simpl; destruct (showCents p);
    now rewrite ?append_nil_r.
Qed.

(** [formatForDisplay] by the segments of the cleaned text. *)
Lemma formatForDisplay_segments p text ip rest :
  split (stripNonNumeric text) = ip :: rest ->
  formatForDisplay p text =
    if (stripNonNumeric text =? "") then ""
    else symbolPrefix p ++ groupFromRight ip ++ fractionSuffix p (hd_error rest).
Proof.
  intros E. unfold formatForDisplay.
  destruct (stripNonNumeric text =? "") eqn:Hc; [reflexivity|].
  pose proof (split_allNumeric _ (stripNonNumeric_allNumeric text)) as HF.
  rewrite E in HF. inversion HF as [|? ? Hip Hrest]; subst.
  rewrite (formattedValueOf_segments p _ ip rest E).
  rewrite addCommas_suffix by (auto using hd_error_digits).
  unfold symbolPrefix. destruct (showCurrencySymbol p); reflexivity.
Qed.

Lemma canonical_numeric ip fp :
  allDigits ip = true -> optDigits fp = true -> allNumeric (canonical ip fp) = true.
Proof.
  intros Hip Hfp. destruct fp as [f|]; simpl in *.
  - rewrite allNumeric_app, (allDigits_allNumeric _ Hip). simpl.
    now apply allDigits_allNumeric.
  - now apply allDigits_allNumeric.
Qed.

Lemma split_canonical ip fp :
  allDigits ip = true -> optDigits fp = true ->
  split (canonical ip fp) = ip :: match fp with Some f => [f] | None => [] end.
Proof.
  intros Hip Hfp. destruct fp as [f|]; unfold canonical, optDigits in *.
  - rewrite split_digits_point, split_digits by assumption. reflexivity.
  - now apply split_digits.
Qed.

Lemma formatForDisplay_canonical p ip fp :
  allDigits ip = true -> optDigits fp = true ->
  formatForDisplay p (canonical ip fp) =
    if (canonical ip fp =? "") then ""
    else symbolPrefix p ++ groupFromRight ip ++ fractionSuffix p fp.
Proof.
  intros Hip Hfp.
  pose proof (stripNonNumeric_id _ (canonical_numeric ip fp Hip Hfp)) as Hs.
  rewrite (formatForDisplay_segments p _ ip
             (match fp with Some f => [f] | None => [] end)).
  - rewrite Hs. destruct fp; reflexivity.
  - rewrite Hs. now apply split_canonical.
Qed.

(** What is left of a formatted string once symbol and separators are
    stripped again. *)
Lemma stripNonNumeric_formatted p ip fp :
  allDigits ip = true -> optDigits fp = true ->
  stripNonNumeric (symbolPrefix p ++ groupFromRight ip ++ fractionSuffix p fp)
    = ip ++ fractionSuffix p fp.
Proof.
  intros Hip Hfp. rewrite !stripNonNumeric_app.
  rewrite stripNonNumeric_groupFromRight by assumption.
  rewrite (stripNonNumeric_id (fractionSuffix p fp)) by now apply fractionSuffix_numeric.
  unfold symbolPrefix. destruct (showCurrencySymbol p); reflexivity.
Qed.

Lemma shownFraction_digits p fp :
  optDigits fp = true -> optDigits (shownFraction p fp) = true.
Proof.
  unfold shownFraction. destruct (showCents p), fp as [f|]; simpl; auto.
  apply slice0_allDigits.
Qed.

Lemma suffix_canonical p ip fp :
  ip ++ fractionSuffix p fp = canonical ip (shownFraction p fp).
Proof.
  unfold shownFraction. destruct fp as [f|]; simpl; destruct (showCents p); simpl;
    now rewrite ?append_nil_r.
Qed.

Lemma fractionSuffix_shown p fp :
  fractionSuffix p (shownFraction p fp) = fractionSuffix p fp.
Proof.
  unfold shownFraction. destruct fp as [f|]; simpl; destruct (showCents p) eqn:E; simpl;
    rewrite ?E, ?slice0_idem; reflexivity.
Qed.

Lemma stripNonNumeric_formatForDisplay_canonical p ip fp :
  allDigits ip = true -> optDigits fp = true ->
  stripNonNumeric (formatForDisplay p (canonical ip fp)) =
    if (canonical ip fp =? "") then "" else canonical ip (shownFraction p fp).
Proof.
  intros Hip Hfp. rewrite formatForDisplay_canonical by assumption.
  destruct (canonical ip fp =? ""); [reflexivity|].
  rewrite stripNonNumeric_formatted by assumption. apply suffix_canonical.
Qed.

(** ** The parser *)

Lemma cleanInput_segments p raw ip rest :
  split (stripNonNumeric raw) = ip :: rest ->
  cleanInput p raw = canonical ip (keptFraction p rest).
Proof.
  intros E. unfold cleanInput, keptFraction. rewrite E.
  destruct (showCents p), rest as [|f rest']; simpl; now rewrite ?append_nil_r.
Qed.

(** The canonical string of a raw input, with its two portions. *)
Lemma cleanInput_canonical p raw :
  exists ip fp,
    allDigits ip = true /\ optDigits fp = true /\
    (showCents p = false -> fp = None) /\
    cleanInput p raw = canonical ip fp.
Proof.
  destruct (numeric_view _ (stripNonNumeric_allNumeric raw))
    as (ip & rest & E & _ & Hip & Hrest).
  exists ip, (keptFraction p rest). repeat split; auto.
  - unfold keptFraction. destruct (showCents p); auto using hd_error_digits.
  - unfold keptFraction. now intros ->.
  - now apply cleanInput_segments.
Qed.

Lemma spanDigits_digits_app ip r :
  allDigits ip = true -> digitRun r = 0%nat -> spanDigits (ip ++ r) = (ip, r).
Proof.
  intros Hip Hr. induction ip as [|c ip IH]; simpl in *.
  - destruct r as [|c r]; [reflexivity|]. simpl in Hr.
    simpl. destruct (isDigit c); [discriminate | reflexivity].
  - apply andb_prop in Hip as [Hc Hs]. rewrite Hc, (IH Hs). reflexivity.
Qed.

Lemma spanDigits_digits ip : allDigits ip = true -> spanDigits ip = (ip, "").
Proof.
  intros H. rewrite <- (append_nil_r ip) at 1. now apply spanDigits_digits_app.
Qed.

Lemma parseFloat_canonical ip fp :
  allDigits ip = true -> optDigits fp = true ->
  parseFloat (canonical ip fp) =
    if (ip ++ fractionDigits fp =? "") then None
    else Some (digitsToZ 0 (ip ++ fractionDigits fp)
                 # pow10 (String.length (fractionDigits fp))).
Proof.
  intros Hip Hfp. unfold parseFloat. destruct fp as [f|]; unfold canonical, optDigits in *.
  - rewrite spanDigits_digits_app by (assumption || reflexivity).
    cbn [append Ascii.eqb Bool.eqb]. simpl (("." =? ".")%char).
    rewrite spanDigits_digits by assumption. reflexivity.
  - rewrite spanDigits_digits by assumption. reflexivity.
Qed.

Lemma digitsToZ_app acc a b :
  digitsToZ acc (a ++ b) = digitsToZ (digitsToZ acc a) b.
Proof. revert acc. induction a; intros acc; simpl; auto. Qed.

Lemma pow10_add m n : pow10 (m + n) = (pow10 m * pow10 n)%positive.
Proof. induction m; simpl; [reflexivity | rewrite IHm; lia]. Qed.

Lemma digitsToZ_acc acc s :
  digitsToZ acc s = (acc * Zpos (pow10 (String.length s)) + digitsToZ 0 s)%Z.
Proof.
  revert acc. induction s as [|c s IH]; intros acc;
    cbn [digitsToZ String.length pow10].
  - lia.
  - rewrite IH, (IH (10 * 0 + digitValue c)%Z), Pos2Z.inj_mul. lia.
Qed.

Lemma digitValue_bounds c : isDigit c = true -> (0 <= digitValue c <= 9)%Z.
Proof.
  unfold isDigit, digitValue. cbv zeta.
  intros [H1 H2]%andb_prop. apply Nat.leb_le in H1, H2. lia.
Qed.

Lemma digitsToZ_bounds s :
  allDigits s = true -> (0 <= digitsToZ 0 s < Zpos (pow10 (String.length s)))%Z.
Proof.
  induction s as [|c s IH]; cbn [digitsToZ String.length pow10 allDigits]; [lia|].
  intros [Hc Hs]%andb_prop. rewrite digitsToZ_acc.
  pose proof (digitValue_bounds c Hc). specialize (IH Hs).
  rewrite Pos2Z.inj_mul. nia.
Qed.

Lemma parseFloat_digits s :
  allDigits s = true -> s <> "" ->
  parseFloat s = Some (inject_Z (digitsToZ 0 s)).
Proof.
  intros H Hne. pose proof (parseFloat_canonical s None H eq_refl) as E.
  simpl in E. rewrite append_nil_r in E. rewrite E.
  destruct (String.eqb_spec s ""); [contradiction | reflexivity].
Qed.

(** ** Truncation to shown digits *)

Lemma truncateTo_frac k n d :
  truncateTo k (n # d) == ((n * Zpos (pow10 k)) / Zpos d) # pow10 k.
Proof.
  unfold truncateTo, Qdiv, Qinv, Qmult, Qfloor, inject_Z, Qeq. cbn [Qnum Qden].
  rewrite !Pos.mul_1_r, !Z.mul_1_r. reflexivity.
Qed.

Lemma slice0_length_le n s : (String.length (slice0 n s) <= n)%nat.
Proof.
  unfold slice0. revert n. induction s as [|c s IH]; intros [|n]; simpl; try lia.
  specialize (IH n). lia.
Qed.

Lemma truncate_cents ip f :
  allDigits ip = true -> allDigits f = true ->
  truncateTo 2 (digitsToZ 0 (ip ++ f) # pow10 (String.length f))
    == digitsToZ 0 (ip ++ slice0 2 f) # pow10 (String.length (slice0 2 f)).
Proof.
  intros Hip Hf. destruct (slice0_split 2 f) as (r & E & H).
  pose proof (slice0_length_le 2 f) as Hle.
  remember (slice0 2 f) as f2 eqn:Hf2. clear Hf2. subst f.
  rewrite allDigits_app in Hf. apply andb_prop in Hf as [Hf2 Hr].
  rewrite truncateTo_frac, <- append_assoc, digitsToZ_app, digitsToZ_acc.
  rewrite length_append, pow10_add.
  set (A := digitsToZ 0 (ip ++ f2)).
  pose proof (digitsToZ_bounds r Hr) as HB.
  destruct H as [H | ->].
  - rewrite H. change (pow10 2) with 100%positive.
    set (R := pow10 (String.length r)) in *. set (B := digitsToZ 0 r) in *.
    rewrite Pos2Z.inj_mul.
    replace (((A * Zpos R + B) * 100) / (100 * Zpos R))%Z with A; [reflexivity|].
    apply (Z.div_unique_pos _ _ A (100 * B)); lia.
  - cbn [digitsToZ String.length pow10] in *. rewrite Pos.mul_1_r, Z.mul_1_r, Z.add_0_r.
    change (pow10 2) with 100%positive. unfold Qeq. cbn [Qnum Qden].
    destruct (String.length f2) as [|[|[|k]]]; [| | | lia];
      cbn [pow10]; Z.to_euclidean_division_equations; lia.
Qed.

Lemma truncate_integer_portion ip f :
  allDigits f = true ->
  truncateTo 0 (digitsToZ 0 (ip ++ f) # pow10 (String.length f))
    == inject_Z (digitsToZ 0 ip).
Proof.
  intros Hf. rewrite truncateTo_frac, digitsToZ_app, digitsToZ_acc. cbn [pow10].
  pose proof (digitsToZ_bounds f Hf) as HB. rewrite Z.mul_1_r.
  replace ((digitsToZ 0 ip * Zpos (pow10 (String.length f)) + digitsToZ 0 f)
             / Zpos (pow10 (String.length f)))%Z with (digitsToZ 0 ip); [reflexivity|].
  apply (Z.div_unique_pos _ _ _ (digitsToZ 0 f)); lia.
Qed.

Lemma truncate_units z : truncateTo 0 (inject_Z z) == inject_Z z.
Proof.
  unfold inject_Z. rewrite truncateTo_frac. cbn [pow10].
  rewrite Z.mul_1_r, Z.div_1_r. reflexivity.
Qed.

(** ** The change handler *)

Lemma handleChange_display p st input :
  fst (handleChange p st input) =
    setDisplayValue (formatForDisplay p (cleanInput p input)) st.
Proof.
  unfold handleChange. destruct (cleanInput p input =? ""); [reflexivity|].
  destruct (parseFloat (cleanInput p input)); reflexivity.
Qed.

Lemma handleChange_reported p st input :
  snd (handleChange p st input) = reported p input.
Proof.
  unfold reported, handleChange. destruct (cleanInput p input =? ""); [reflexivity|].
  destruct (parseFloat (cleanInput p input)); reflexivity.
Qed.

Lemma reported_empty p input :
  cleanInput p input = "" -> reported p input = Some 0.
Proof. unfold reported, handleChange. intros ->. reflexivity. Qed.

Lemma reported_parsed p input x :
  cleanInput p input <> "" -> parseFloat (cleanInput p input) = Some x ->
  reported p input =
    Some (let clampedValue := Math_min (maxValue p) (Math_max (minValue p) x) in
          if showCents p then clampedValue else Math_floor clampedValue).
Proof.
  unfold reported, handleChange. intros Hne ->.
  destruct (String.eqb_spec (cleanInput p input) ""); [contradiction | reflexivity].
Qed.

Lemma reported_unparsed p input :
  cleanInput p input <> "" -> parseFloat (cleanInput p input) = None ->
  reported p input = None.
Proof.
  unfold reported, handleChange. intros Hne ->.
  destruct (String.eqb_spec (cleanInput p input) ""); [contradiction | reflexivity].
Qed.

(** Clamping lands between the bounds when these are ordered. *)
Lemma clamp_range lo hi x :
  lo <= hi -> lo <= Math_min hi (Math_max lo x) <= hi.
Proof.
  intros H. unfold Math_min, Math_max. split.
  - apply Q.min_glb; [assumption | apply Q.le_max_l].
  - apply Q.le_min_l.
Qed.

Lemma floor_range lo hi x z :
  lo == inject_Z z -> lo <= x <= hi -> lo <= Math_floor x <= hi.
Proof.
  intros Hz [Hlo Hhi]. unfold Math_floor. split.
  - rewrite Hz in *. rewrite <- Zle_Qle, <- (Qfloor_Z z).
    now apply Qfloor_resp_le.
  - eapply Qle_trans; [apply Qfloor_le | assumption].
Qed.

(** C1. With [showCents] the parser keeps one decimal point but all the
    fraction digits after it: typing ["12.999"] shows ["$12.99"], the
    canonical string is ["12.999"] and the number passed to [setValue] is
    12.999, which is not 12.99.  Only [formatForDisplay] cuts the fraction
    to two digits. *)
Theorem reported_value_keeps_extra_fraction_digits :
  forall st : ComponentState,
    let p := propsWith 0 0 MAX_SAFE_INTEGER true true in
    cleanInput p "12.999" = "12.999" /\
    handleChange p st "12.999" = (setDisplayValue "$12.99" st, Some (12999 # 1000)) /\
    ~ (12999 # 1000 == 1299 # 100).
Proof.
  intros st p. repeat split. intros H. discriminate H.
Qed.

(** C2, as stated, fails.  With [showCents] off the value is floored after
    it is clamped: with the lower bound 1/2 typing ["0"] reports 0, below
    the bound, for a canonical string that is not empty.  And with bounds
    given in the wrong order no number lies between them: with the bounds
    10 and 5 typing ["7"] reports 5. *)
Lemma range_invariant_fails_below_fractional_minimum :
  (let p := propsWith 0 (1 # 2) 100 false true in
   cleanInput p "0" <> "" /\
   snd (handleChange p initialState "0") = Some 0 /\
   ~ (minValue p <= 0)) /\
  (let p := propsWith 0 10 5 true true in
   cleanInput p "7" <> "" /\
   snd (handleChange p initialState "7") = Some 5 /\
   ~ (minValue p <= 5)).
Proof.
  cbv zeta. repeat split; try discriminate; intros H; apply H; reflexivity.
Qed.

(** C2, amended.  When the bounds are ordered and, with [showCents] off,
    the lower bound is an integer, every number passed to [setValue] lies
    between [minValue] and [maxValue], except that an empty canonical
    string reports exactly 0. *)
Theorem reported_value_in_range :
  forall (p : FormattedInputProps) (st : ComponentState) (input : string) (v : Q),
    minValue p <= maxValue p ->
    (showCents p = true \/ exists z : Z, minValue p == inject_Z z) ->
    snd (handleChange p st input) = Some v ->
    if (cleanInput p input =? "") then v = 0
    else minValue p <= v <= maxValue p.
Proof.
  intros p st input v Hbounds Hint. rewrite handleChange_reported.
  destruct (String.eqb_spec (cleanInput p input) "") as [He|Hne].
  - rewrite (reported_empty _ _ He). congruence.
  - destruct (parseFloat (cleanInput p input)) as [x|] eqn:Hx.
    + rewrite (reported_parsed _ _ x Hne Hx). intros [= <-]. cbv zeta.
      pose proof (clamp_range _ _ x Hbounds) as Hc.
      destruct (showCents p); [assumption|].
      destruct Hint as [Hint | [z Hz]]; [discriminate|].
      now apply (floor_range _ _ _ z).
    + rewrite (reported_unparsed _ _ Hne Hx). discriminate.
Qed.

Lemma reported_value_in_range_witness :
  let p := propsWith 0 0 100 false true in
  snd (handleChange p initialState "500") = Some 100 /\
  minValue p <= 100 <= maxValue p.
Proof.
  cbv zeta. split; [reflexivity|].
  apply (reported_value_in_range (propsWith 0 0 100 false true) initialState "500" 100).
  - discriminate.
  - right. exists 0%Z. reflexivity.
  - reflexivity.
Defined.

(** C7. With [showCents] off every change event calls [setValue], and the
    number it passes is an integer: 0 for an empty canonical string, the
    floor of the clamped parse result otherwise. *)
Theorem integer_policy :
  forall (p : FormattedInputProps) (st : ComponentState) (input : string),
    showCents p = false ->
    exists z : Z, snd (handleChange p st input) = Some (inject_Z z).
Proof.
  intros p st input Hc. rewrite handleChange_reported.
  destruct (cleanInput_canonical p input) as (ip & fp & Hip & _ & Hfp & E).
  rewrite (Hfp Hc) in E. simpl in E.
  destruct (String.eqb_spec (cleanInput p input) "") as [He|Hne].
  - exists 0%Z. now apply reported_empty.
  - rewrite E in Hne.
    rewrite (reported_parsed p input (inject_Z (digitsToZ 0 ip))).
    + rewrite Hc. eexists. reflexivity.
    + now rewrite E.
    + rewrite E. now apply parseFloat_digits.
Qed.

Lemma integer_policy_witness :
  exists z : Z,
    snd (handleChange (defaultProps 0) initialState "1234.56") = Some (inject_Z z).
Proof.
  apply (integer_policy (defaultProps 0) initialState "1234.56"). reflexivity.
Defined.

(** A canonical string that is not empty and does not parse is the bare
    decimal point, which only the parser with cents lets through. *)
Lemma unparsable_is_point p input :
  cleanInput p input <> "" -> parseFloat (cleanInput p input) = None ->
  cleanInput p input = "." /\ showCents p = true.
Proof.
  destruct (cleanInput_canonical p input) as (ip & fp & Hip & Hfp & Hnone & E).
  rewrite E, parseFloat_canonical by assumption. intros Hne.
  destruct (String.eqb_spec (ip ++ fractionDigits fp) "") as [He|]; [|discriminate].
  intros _. apply append_eq_nil in He as [-> Hf].
  destruct fp as [f|]; simpl in *; subst.
  - split; [reflexivity|]. destruct (showCents p); [reflexivity|].
    now specialize (Hnone eq_refl).
  - now destruct Hne.
Qed.

(** C6. A change event whose canonical string is not empty and does not
    parse (it is then the bare decimal point) does not call [setValue];
    the display is still updated, to the formatted canonical string: the
    point, after the symbol if one is shown. *)
Theorem unparsable_input_keeps_value :
  forall (p : FormattedInputProps) (st : ComponentState) (input : string),
    cleanInput p input <> "" ->
    parseFloat (cleanInput p input) = None ->
    handleChange p st input =
      (setDisplayValue (formatForDisplay p (cleanInput p input)) st, None) /\
    formatForDisplay p (cleanInput p input) = symbolPrefix p ++ ".".
Proof.
  intros p st input Hne Hnan. split.
  - rewrite (surjective_pairing (handleChange p st input)).
    rewrite handleChange_display, handleChange_reported.
    now rewrite (reported_unparsed p input Hne Hnan).
  - destruct (unparsable_is_point p input Hne Hnan) as [-> Hc].
    unfold formatForDisplay, formattedValueOf, symbolPrefix. simpl. rewrite Hc.
    destruct (showCurrencySymbol p); reflexivity.
Qed.

Lemma unparsable_input_keeps_value_witness :
  let p := propsWith 7 0 100 true true in
  let st := {| displayValue := "$7.00"; isFocused := true |} in
  handleChange p st "." = ({| displayValue := "$."; isFocused := true |}, None).
Proof.
  cbv zeta.
  apply (proj1 (unparsable_input_keeps_value (propsWith 7 0 100 true true)
                  {| displayValue := "$7.00"; isFocused := true |} "."
                  ltac:(discriminate) eq_refl)).
Defined.

(** ** Focus, blur and the display effect *)

(** C3. [handleFocus] on a zero value sets the display to ["$"] whatever
    [showCurrencySymbol] says: with the symbol switched off the display
    becomes ["$"], not the empty string. *)
Theorem focus_on_zero_ignores_symbol_setting :
  forall (F : IntlNumberFormat) (st : ComponentState) (lo hi : Q) (cents : bool),
    handleFocus (propsWith 0 lo hi cents false) st =
      {| displayValue := "$"; isFocused := true |}.
Proof. reflexivity. Qed.

Lemma handleFocus_zero {F : IntlNumberFormat} p st :
  Qeq_bool (value p) 0 = true ->
  handleFocus p st = {| displayValue := "$"; isFocused := true |}.
Proof. unfold handleFocus. intros ->. reflexivity. Qed.

Lemma handleFocus_nonzero {F : IntlNumberFormat} p st :
  Qeq_bool (value p) 0 = false ->
  handleFocus p st =
    {| displayValue := intlFormat (formatterOptions p) (value p); isFocused := true |}.
Proof. unfold handleFocus. intros ->. reflexivity. Qed.

(** The effect lists [isFocused] among its dependencies, so it runs after
    a focus event that sets the flag: on a zero value it then replaces the
    ["$"] of [handleFocus] by the formatter's rendering of 0. *)
Lemma focus_then_effect_zero {F : IntlNumberFormat} p st :
  Qeq_bool (value p) 0 = true ->
  displayEffect p (handleFocus p st) =
    {| displayValue := intlFormat (formatterOptions p) (value p); isFocused := true |}.
Proof.
  intros Hv. rewrite (handleFocus_zero p st Hv). unfold displayEffect. rewrite Hv.
  reflexivity.
Qed.

(** X17. A focus followed by a blur on a zero value, each with the effect
    run its change of [isFocused] triggers, leaves the formatter's rendering
    of 0 in the display, not the empty string of the handlers alone. *)
Lemma focus_blur_cycle_zero {F : IntlNumberFormat} p st :
  Qeq_bool (value p) 0 = true ->
  intlFormat (formatterOptions p) (value p) <> "" ->
  intlFormat (formatterOptions p) (value p) <> "$" ->
  displayEffect p (handleBlur p (displayEffect p (handleFocus p st))) =
    {| displayValue := intlFormat (formatterOptions p) (value p); isFocused := false |}.
Proof.
  intros Hv Hne Hsym. rewrite (focus_then_effect_zero p st Hv).
  unfold handleBlur, displayEffect. rewrite Hv. cbn [displayValue isFocused].
  destruct (String.eqb_spec (intlFormat (formatterOptions p) (value p)) "$");
    [contradiction|].
  cbn [andb negb setIsFocused setDisplayValue displayValue isFocused].
  destruct (String.eqb_spec (intlFormat (formatterOptions p) (value p)) "");
    [contradiction | reflexivity].
Qed.

(** C4, as stated, fails: a zero loaded from outside while the field is
    unfocused and still shows text is rendered by the formatter, as "$0". *)
Lemma zero_load_over_text_shows_formatted_zero :
  displayValue
    (displayEffect (F := enUS) (defaultProps 0)
       {| displayValue := "$1,500"; isFocused := false |}) = "$0".
Proof. reflexivity. Qed.

(** C4, amended.  A change event that leaves no digit or point, whatever
    the value was, shows the empty string and reports 0; a zero value
    loaded while the component is unfocused and its display is empty leaves
    the display empty. *)
Theorem empty_vs_zero :
  forall (F : IntlNumberFormat) (p : FormattedInputProps)
         (st st' : ComponentState) (input : string),
    (stripNonNumeric input = "" ->
       handleChange p st input = (setDisplayValue "" st, Some 0)) /\
    (Qeq_bool (value p) 0 = true ->
     isFocused st' = false ->
     displayValue st' = "" ->
       displayValue (displayEffect p st') = "").
Proof.
  intros F p st st' input. split.
  - intros Hin. unfold handleChange, cleanInput. rewrite Hin. simpl.
    destruct (showCents p); reflexivity.
  - intros Hv Hf Hd. unfold displayEffect. rewrite Hv, Hf, Hd. reflexivity.
Qed.

Lemma empty_vs_zero_witness :
  handleChange (defaultProps 1500) {| displayValue := "$1,500"; isFocused := true |} ""
    = ({| displayValue := ""; isFocused := true |}, Some 0) /\
  displayValue (displayEffect (F := enUS) (defaultProps 0) initialState) = "".
Proof.
  split.
  - apply (proj1 (empty_vs_zero enUS (defaultProps 1500)
                    {| displayValue := "$1,500"; isFocused := true |} initialState "")).
    reflexivity.
  - apply (proj2 (empty_vs_zero enUS (defaultProps 0) initialState initialState ""));
      reflexivity.
Defined.

(** The effect on a zero value over a display that is not empty: the
    formatter's rendering, focused or not. *)
Lemma displayEffect_zero_over_text {F : IntlNumberFormat} p st :
  Qeq_bool (value p) 0 = true -> displayValue st <> "" ->
  displayValue (displayEffect p st) = intlFormat (formatterOptions p) (value p).
Proof.
  intros Hv Hd. unfold displayEffect. rewrite Hv.
  destruct (String.eqb_spec (displayValue st) ""); [contradiction|].
  rewrite !andb_false_r. reflexivity.
Qed.

(** C5, as stated, fails: on a zero value with an empty display the blur
    handler leaves the display empty; it is not recomputed as the
    formatter's rendering of 0, "$0". *)
Lemma blur_zero_empty_display_not_reformatted :
  let p := defaultProps 0 in
  let st := {| displayValue := ""; isFocused := true |} in
  displayValue (handleBlur (F := enUS) p st) = "" /\
  intlFormat (IntlNumberFormat := enUS) (formatterOptions p) (value p) = "$0".
Proof. split; reflexivity. Qed.

(** C5, amended.  A blur event clears the focus flag.  On a zero value the
    display collapses to the empty string when it is exactly ["$"] and is
    left as it is otherwise; on a nonzero value it becomes the formatter's
    rendering of the value. *)
Theorem blur_transition :
  forall (F : IntlNumberFormat) (p : FormattedInputProps) (st : ComponentState),
    isFocused (handleBlur p st) = false /\
    (Qeq_bool (value p) 0 = true -> displayValue st = "$" ->
       displayValue (handleBlur p st) = "") /\
    (Qeq_bool (value p) 0 = true -> displayValue st <> "$" ->
       displayValue (handleBlur p st) = displayValue st) /\
    (Qeq_bool (value p) 0 = false ->
       displayValue (handleBlur p st) = intlFormat (formatterOptions p) (value p)).
Proof.
  intros F p st. unfold handleBlur.
  destruct (Qeq_bool (value p) 0); simpl;
    destruct (String.eqb_spec (displayValue st) "$"); simpl;
    repeat split; intros; congruence.
Qed.

Lemma blur_transition_witness :
  let st := {| displayValue := "$"; isFocused := true |} in
  displayValue (handleBlur (F := enUS) (defaultProps 0) st) = "" /\
  displayValue (handleBlur (F := enUS) (defaultProps 2500) st) = "$2,500".
Proof.
  cbv zeta. split.
  - apply (proj1 (proj2 (blur_transition enUS (defaultProps 0)
                           {| displayValue := "$"; isFocused := true |})));
      reflexivity.
  - apply (proj2 (proj2 (proj2 (blur_transition enUS (defaultProps 2500)
                           {| displayValue := "$"; isFocused := true |})))).
    reflexivity.
Defined.

(** ** Shape, round trip and idempotence of the manual formatter *)

(** C8, as stated, fails on the empty canonical string: [formatForDisplay]
    returns the empty string, without the symbol that the configuration
    shows. *)
Lemma formatForDisplay_empty_has_no_symbol :
  let p := defaultProps 0 in
  showCurrencySymbol p = true /\
  formatForDisplay p (canonical "" None) = "".
Proof. split; reflexivity. Qed.

(** C8, amended.  On a canonical numeric string that is not empty, [formatForDisplay]
    writes ["$"] exactly when [showCurrencySymbol] is set, then the integer
    portion with a comma every three digits counted from the right, then
    the fraction it shows after a point: digits only, no separator.  Typing
    ["1000000"] with the default configuration shows ["$1,000,000"] and
    reports 1000000. *)
Theorem manual_formatter_shape :
  forall (p : FormattedInputProps) (ip : string) (fp : option string),
    allDigits ip = true ->
    optDigits fp = true ->
    canonical ip fp <> "" ->
    formatForDisplay p (canonical ip fp) =
      (if showCurrencySymbol p then "$" else "")
        ++ groupFromRight ip
        ++ match shownFraction p fp with Some f => "." ++ f | None => "" end
    /\ optDigits (shownFraction p fp) = true
    /\ (forall (v : Q) (st : ComponentState),
          handleChange (defaultProps v) st "1000000" =
            (setDisplayValue "$1,000,000" st, Some 1000000)).
Proof.
  intros p ip fp Hip Hfp Hne. repeat split.
  - rewrite formatForDisplay_canonical by assumption.
    destruct (String.eqb_spec (canonical ip fp) ""); [contradiction|].
    unfold symbolPrefix, fractionSuffix, shownFraction.
    destruct fp as [f|], (showCents p); reflexivity.
  - now apply shownFraction_digits.
Qed.

Lemma manual_formatter_shape_witness :
  formatForDisplay (propsWith 0 0 100 true true) "1234567.891" = "$1,234,567.89".
Proof.
  apply (proj1 (manual_formatter_shape (propsWith 0 0 100 true true)
                  "1234567" (Some "891") eq_refl eq_refl ltac:(discriminate))).
Defined.

(** The round trip on the exact decimal numbers, before any rounding to
    binary64, for any string of an integer portion and an optional
    fractional portion.  The side condition leaves out the strings that
    start with the point when cents are off: there the formatter returns
    the bare symbol and nothing is left to parse. *)
Lemma round_trip_canonical p ip fp :
  allDigits ip = true -> optDigits fp = true ->
  (showCents p = false -> ip = "" -> fp = None) ->
  sameNumber
    (parseFloat (stripNonNumeric (formatForDisplay p (canonical ip fp))))
    (option_map (truncateTo (if showCents p then 2 else 0))
       (parseFloat (canonical ip fp))).
Proof.
  intros Hip Hfp Hside.
  rewrite stripNonNumeric_formatForDisplay_canonical by assumption.
  assert (Hs : (if (canonical ip fp =? "") then ""
                else canonical ip (shownFraction p fp))
               = canonical ip (shownFraction p fp)).
  { destruct (String.eqb_spec (canonical ip fp) "") as [He|]; [|reflexivity].
    destruct fp as [f|]; unfold canonical in He.
    - apply append_eq_nil in He as [_ He]. discriminate He.
    - subst ip. unfold shownFraction. destruct (showCents p); reflexivity. }
  rewrite Hs.
  rewrite !parseFloat_canonical by auto using shownFraction_digits.
  unfold shownFraction. destruct (showCents p) eqn:Hc.
  - destruct fp as [f|]; cbn [option_map fractionDigits optDigits] in *.
    + destruct (String.eqb_spec (ip ++ f) "") as [He|Hne].
      * apply append_eq_nil in He as [-> ->]. exact I.
      * destruct (String.eqb_spec (ip ++ slice0 2 f) "") as [He|_].
        -- apply append_eq_nil in He as [-> He].
           destruct f as [|c [|d f]]; [now destruct Hne | discriminate He | discriminate He].
        -- cbn [sameNumber option_map]. symmetry. now apply truncate_cents.
    + rewrite append_nil_r.
      destruct (ip =? ""); [exact I|]. cbn [sameNumber option_map].
      pose proof (truncate_cents ip "" Hip eq_refl) as H.
      cbn [slice0 substring] in H. rewrite append_nil_r in H. symmetry. exact H.
  - cbn [fractionDigits]. rewrite append_nil_r.
    destruct (String.eqb_spec ip "") as [He|Hne].
    + rewrite (Hside eq_refl He). subst ip. exact I.
    + destruct (String.eqb_spec (ip ++ fractionDigits fp) "") as [He|_].
      * apply append_eq_nil in He as [He _]. contradiction.
      * cbn [sameNumber option_map String.length pow10]. symmetry.
        destruct fp as [f|]; cbn [fractionDigits optDigits] in *.
        -- now apply truncate_integer_portion.
        -- rewrite append_nil_r. apply (truncate_units (digitsToZ 0 ip)).
Qed.

(** On the exact decimal numbers: for the canonical string [s] the parser
    makes of any raw input, formatting [s], stripping symbol and separators
    and reading the result gives the decimal number of [s] truncated to the
    fraction digits the configuration shows.  The rounding of [parseFloat64]
    does not keep this, see [round_trip_breaks_on_long_fraction]. *)
Lemma decimal_round_trip :
  forall (p : FormattedInputProps) (raw : string),
    let s := cleanInput p raw in
    sameNumber
      (parseFloat (stripNonNumeric (formatForDisplay p s)))
      (option_map (truncateTo (if showCents p then 2 else 0)) (parseFloat s)).
Proof.
  intros p raw s. subst s.
  destruct (cleanInput_canonical p raw) as (ip & fp & Hip & Hfp & Hnone & ->).
  apply round_trip_canonical; auto.
Qed.

(** A canonical string whose fraction is no longer than the display shows
    comes back unchanged from formatting and stripping, so that parsing
    it again gives the very same number, whatever the parse. *)
Lemma round_trip_exact_on_shown_fraction p ip fp :
  allDigits ip = true -> optDigits fp = true ->
  shownFraction p fp = fp ->
  stripNonNumeric (formatForDisplay p (canonical ip fp)) = canonical ip fp.
Proof.
  intros Hip Hfp Hshown.
  rewrite stripNonNumeric_formatForDisplay_canonical, Hshown by assumption.
  destruct (String.eqb_spec (canonical ip fp) "") as [->|]; reflexivity.
Qed.

Lemma shownFraction_short p f :
  showCents p = true -> (String.length f <= 2)%nat ->
  shownFraction p (Some f) = Some f.
Proof.
  intros Hc Hlen. unfold shownFraction. rewrite Hc. cbn [option_map]. f_equal.
  destruct (slice0_split 2 f) as (r & Hf & [H | ->]).
  - rewrite Hf in Hlen at 1. rewrite length_append, H in Hlen.
    destruct r; [|simpl in Hlen; lia]. now rewrite append_nil_r in Hf.
  - now rewrite append_nil_r in Hf.
Qed.

(** With the fraction the specification's parser would leave, at most two
    digits with cents and none without, the round trip is exact in
    binary64 too. *)
Lemma round_trip_exact_on_short_fraction p ip fp :
  allDigits ip = true -> optDigits fp = true ->
  (String.length (fractionDigits fp) <= 2)%nat ->
  (showCents p = false -> fp = None) ->
  parseFloat64 (stripNonNumeric (formatForDisplay p (canonical ip fp)))
    = parseFloat64 (canonical ip fp).
Proof.
  intros Hip Hfp Hlen Hnone.
  rewrite round_trip_exact_on_shown_fraction; auto.
  destruct fp as [f|].
  - destruct (showCents p) eqn:Hc; [|now specialize (Hnone eq_refl)].
    now apply shownFraction_short.
  - unfold shownFraction. destruct (showCents p); reflexivity.
Qed.

(** C9.  Typing ["0.99999999999999999"] with [showCents]: the parser keeps
    all the fraction digits, and the canonical string parses, in binary64,
    to 1.  The display is ["$0.99"]; stripped, it parses to the binary64
    number next to 0.99, which lies below 0.99.  The two numbers differ by
    more than a hundredth and truncate to 1.00 and 0.98: they do not agree
    to two fraction digits. *)
Theorem round_trip_breaks_on_long_fraction :
  let p := propsWith 0 0 MAX_SAFE_INTEGER true true in
  let s := cleanInput p "0.99999999999999999" in
  let s' := stripNonNumeric (formatForDisplay p s) in
  let one := SpecFloat.S754_finite false 4503599627370496 (-52) in
  let y := SpecFloat.S754_finite false 8917127262193582 (-53) in
  s = "0.99999999999999999" /\
  formatForDisplay p s = "$0.99" /\
  s' = "0.99" /\
  parseFloat64 s = Some one /\
  parseFloat64 s' = Some y /\
  number64 one = Some 1 /\
  number64 y = Some (4458563631096791 # 4503599627370496) /\
  1 # 100 < 1 - (4458563631096791 # 4503599627370496) /\
  truncateTo 2 1 == 1 /\
  truncateTo 2 (4458563631096791 # 4503599627370496) == 98 # 100.
Proof.
  cbv zeta. repeat split; vm_compute; reflexivity.
Qed.

Example round_trip_truncates_cents :
  let p := propsWith 0 0 MAX_SAFE_INTEGER true true in
  cleanInput p "$12.999" = "12.999" /\
  parseFloat "12.999" = Some (12999 # 1000) /\
  parseFloat (stripNonNumeric (formatForDisplay p "12.999")) = Some (1299 # 100).
Proof. cbv zeta. repeat split. Qed.

(** Off the parser's range the round trip can fail: without cents, [".5"]
    parses to 1/2 but formats to the bare symbol, which does not parse. *)
Example round_trip_leading_point :
  let p := defaultProps 0 in
  parseFloat ".5" = Some (5 # 10) /\
  formatForDisplay p ".5" = "$" /\
  parseFloat (stripNonNumeric (formatForDisplay p ".5")) = None /\
  cleanInput p ".5" = "".
Proof. cbv zeta. repeat split. Qed.

(** C10, as stated, fails: without cents and with the symbol, a text whose
    first digit-or-point character is a point formats to the bare ["$"],
    and ["$"] formats to the empty string. *)
Lemma formatForDisplay_not_idempotent_on_leading_point :
  let p := defaultProps 0 in
  formatForDisplay p ".5" = "$" /\
  formatForDisplay p (formatForDisplay p ".5") = "" /\
  formatForDisplay p (formatForDisplay p ".5") <> formatForDisplay p ".5".
Proof. cbv zeta. repeat split. discriminate. Qed.

(** Formatting twice is formatting once, away from the leading point. *)
Lemma formatForDisplay_twice p s :
  (showCents p = false -> showCurrencySymbol p = true ->
     startsWithPoint (stripNonNumeric s) = false) ->
  formatForDisplay p (formatForDisplay p s) = formatForDisplay p s.
Proof.
  intros Hguard.
  destruct (numeric_view _ (stripNonNumeric_allNumeric s))
    as (ip & rest & E & Hjoin & Hip & Hrest).
  pose proof (hd_error_digits rest Hrest) as Hfp.
  rewrite (formatForDisplay_segments p s ip rest E).
  destruct (String.eqb_spec (stripNonNumeric s) "") as [|Hne]; [reflexivity|].
  set (fp := hd_error rest) in *.
  set (out := symbolPrefix p ++ groupFromRight ip ++ fractionSuffix p fp).
  assert (Hout : stripNonNumeric out = canonical ip (shownFraction p fp)).
  { unfold out. rewrite stripNonNumeric_formatted by assumption.
    apply suffix_canonical. }
  rewrite (formatForDisplay_segments p out ip
             (match shownFraction p fp with Some f => [f] | None => [] end)).
  2:{ rewrite Hout. apply split_canonical; auto using shownFraction_digits. }
  rewrite Hout.
  replace (hd_error match shownFraction p fp with Some f => [f] | None => [] end)
    with (shownFraction p fp) by (destruct (shownFraction p fp); reflexivity).
  rewrite fractionSuffix_shown.
  destruct (String.eqb_spec (canonical ip (shownFraction p fp)) "") as [He|]; [|reflexivity].
  unfold shownFraction in He. destruct (showCents p) eqn:Hc.
  - exfalso. apply Hne. rewrite Hjoin, join_cons.
    destruct rest as [|f rest']; cbn [fp hd_error option_map canonical] in He.
    + now rewrite He.
    + apply append_eq_nil in He as [_ He]. discriminate He.
  - cbn [canonical] in He. subst ip. unfold out, symbolPrefix.
    replace (fractionSuffix p fp) with ""
      by (unfold fractionSuffix; destruct fp; rewrite ?Hc; reflexivity).
    destruct (showCurrencySymbol p); [|reflexivity].
    exfalso. specialize (Hguard eq_refl eq_refl).
    rewrite Hjoin, join_cons in Hguard, Hne.
    destruct rest as [|f rest']; [now apply Hne | discriminate Hguard].
Qed.

(** C10, amended.  [formatForDisplay] is idempotent on every text, for every
    configuration, unless cents are off, the symbol is on and the first
    digit-or-point character of the text is a point. *)
Theorem formatForDisplay_idempotent :
  forall (p : FormattedInputProps) (s : string),
    (showCents p = false -> showCurrencySymbol p = true ->
       startsWithPoint (stripNonNumeric s) = false) ->
    formatForDisplay p (formatForDisplay p s) = formatForDisplay p s.
Proof. exact formatForDisplay_twice. Qed.

Lemma allDigits_no_leading_point s : allDigits s = true -> startsWithPoint s = false.
Proof.
  destruct s as [|c s]; [reflexivity|]. simpl.
  intros [Hc _]%andb_prop. now apply isDigit_not_point.
Qed.

(** [handleChange] only formats canonical strings of its parser, and on
    those the exception never arises. *)
Lemma formatForDisplay_twice_on_cleanInput p raw :
  formatForDisplay p (formatForDisplay p (cleanInput p raw))
    = formatForDisplay p (cleanInput p raw).
Proof.
  apply formatForDisplay_twice. intros Hc _.
  destruct (cleanInput_canonical p raw) as (ip & fp & Hip & _ & Hnone & ->).
  rewrite (Hnone Hc). cbn [canonical].
  rewrite stripNonNumeric_id by now apply allDigits_allNumeric.
  now apply allDigits_no_leading_point.
Qed.

(** The exception is exact: there the first pass gives the bare symbol and
    the second pass the empty string. *)
Lemma formatForDisplay_leading_point p s :
  showCents p = false -> showCurrencySymbol p = true ->
  startsWithPoint (stripNonNumeric s) = true ->
  formatForDisplay p s = "$" /\ formatForDisplay p (formatForDisplay p s) = "".
Proof.
  intros Hc Hsym Hpt.
  destruct (stripNonNumeric s) as [|c r] eqn:E; [discriminate Hpt|].
  simpl in Hpt. apply Ascii.eqb_eq in Hpt. subst c.
  assert (H : formatForDisplay p s = "$").
  { rewrite (formatForDisplay_segments p s "" (split r)) by (rewrite E; reflexivity).
    rewrite E. unfold symbolPrefix, fractionSuffix. rewrite Hsym, Hc.
    destruct (hd_error (split r)); reflexivity. }
  split; [assumption|]. rewrite H. reflexivity.
Qed.

Lemma formatForDisplay_idempotent_witness :
  startsWithPoint (stripNonNumeric "$1,234567.5") = false /\
  formatForDisplay (defaultProps 0) (formatForDisplay (defaultProps 0) "$1,234567.5") =
    formatForDisplay (defaultProps 0) "$1,234567.5".
Proof.
  split; [reflexivity|].
  apply (formatForDisplay_idempotent (defaultProps 0) "$1,234567.5").
  intros _ _. reflexivity.
Defined.

(** ** Scenarios of the specification *)

Example typing_beyond_the_maximum_clamps :
  reported (propsWith 0 0 100 false true) "500" = Some 100.
Proof. reflexivity. Qed.

Example decimal_style_rendering :
  displayValue (displayEffect (F := enUS) (propsWith 2500 0 MAX_SAFE_INTEGER false false)
                  initialState) = "2,500".
Proof. reflexivity. Qed.

Example focus_then_blur_on_zero :
  let p := defaultProps 0 in
  handleFocus (F := enUS) p initialState = {| displayValue := "$"; isFocused := true |} /\
  handleBlur (F := enUS) p (handleFocus (F := enUS) p initialState) = initialState.
Proof. split; reflexivity. Qed.

Example typing_with_cents :
  let p := propsWith 0 0 MAX_SAFE_INTEGER true true in
  fst (handleChange p initialState "1a2.9.9.9") = setDisplayValue "$12.9" initialState /\
  reported p "1a2.9.9.9" = Some (129 # 10).
Proof. split; reflexivity. Qed.

(** * Further properties *)

(** ** [addCommas] on any text *)

Lemma removeCommas_app a b :
  removeCommas (a ++ b) = removeCommas a ++ removeCommas b.
Proof.
  induction a as [|c a IH]; simpl; [reflexivity|].
  destruct (c =? ",")%char; simpl; congruence.
Qed.

Lemma removeCommas_insertSeparatorsFrom b s :
  removeCommas (insertSeparatorsFrom b s) = removeCommas s.
Proof.
  revert b. induction s as [|c s IH]; intros b; [reflexivity|].
  cbn [insertSeparatorsFrom].
  destruct (b && (0 <? digitRun (String c s))%nat
              && (digitRun (String c s) mod 3 =? 0)%nat);
    cbn [removeCommas Ascii.eqb Bool.eqb]; rewrite IH; reflexivity.
Qed.

(** [addCommas] works on the text before the first point and copies the
    rest. *)
Lemma addCommas_view s :
  exists p0 t,
    s = p0 ++ t /\ addCommas s = insertSeparators p0 ++ t /\
    (String.length p0 <= String.length s)%nat.
Proof.
  pose proof (join_split s) as HJ. unfold addCommas.
  destruct (split s) as [|p0 rest] eqn:E; [now destruct (split_not_nil s)|].
  rewrite join_cons in HJ. rewrite join_cons.
  exists p0, (match rest with [] => "" | _ :: _ => "." ++ join rest end).
  repeat split; auto. rewrite <- HJ. rewrite length_append. lia.
Qed.

(** X1. [addCommas] only inserts commas: with the commas deleted, its
    result is its argument with the commas deleted. *)
Theorem addCommas_only_inserts_commas :
  forall s : string, removeCommas (addCommas s) = removeCommas s.
Proof.
  intros s. destruct (addCommas_view s) as (p0 & t & Hs & Ha & _).
  rewrite Ha. clear Ha. subst s. rewrite !removeCommas_app.
  unfold insertSeparators. now rewrite removeCommas_insertSeparatorsFrom.
Qed.

Lemma split_noPoint_app a r :
  noPoint a = true ->
  split (a ++ r) =
    match split r with h :: t => (a ++ h) :: t | [] => [a] end.
Proof.
  induction a as [|c a IH]; simpl.
  - intros _. destruct (split r) eqn:E; [now destruct (split_not_nil r)|reflexivity].
  - intros [Hc Hs]%andb_prop. apply negb_true_iff in Hc. rewrite Hc, IH by assumption.
    destruct (split r); reflexivity.
Qed.

Lemma split_noPoint a : noPoint a = true -> split a = [a].
Proof.
  intros H. rewrite <- (append_nil_r a) at 1.
  rewrite split_noPoint_app by assumption. simpl. now rewrite append_nil_r.
Qed.

(** X2. [addCommas] groups the text before the first decimal point only:
    everything from that point on, further points included, is copied
    unchanged. *)
Theorem addCommas_copies_after_first_point :
  forall a r : string,
    noPoint a = true ->
    addCommas (a ++ "." ++ r) = addCommas a ++ "." ++ r.
Proof.
  intros a r Ha. unfold addCommas.
  rewrite (split_noPoint_app a ("." ++ r)), (split_noPoint a) by assumption.
  cbn [split append Ascii.eqb Bool.eqb]. change (("." =? ".")%char) with true.
  cbn iota. rewrite append_nil_r, join_cons.
  pose proof (join_split r) as HJ. pose proof (split_not_nil r) as HN.
  destruct (split r) as [|h t] eqn:E; [now destruct HN|].
  rewrite HJ. unfold join at 1. reflexivity.
Qed.

Lemma addCommas_copies_after_first_point_witness :
  addCommas "x1234567.1234.5678" = "x1,234,567.1234.5678".
Proof.
  apply (addCommas_copies_after_first_point "x1234567" "1234.5678"). reflexivity.
Defined.

Lemma digitRun_le s : (digitRun s <= String.length s)%nat.
Proof.
  induction s as [|c s IH]; simpl; [lia|]. destruct (isDigit c); lia.
Qed.

Lemma insertSeparatorsFrom_short b s :
  (String.length s <= 2)%nat -> insertSeparatorsFrom b s = s.
Proof.
  revert b. induction s as [|c s IH]; intros b Hlen; [reflexivity|].
  cbn [insertSeparatorsFrom]. cbn [String.length] in Hlen.
  rewrite IH by lia.
  pose proof (digitRun_le (String c s)) as Hrun. cbn [String.length] in Hrun.
  destruct (digitRun (String c s)) as [|[|[|n]]]; try lia;
    destruct b; reflexivity.
Qed.

Lemma insertSeparators_short s :
  (String.length s <= 3)%nat -> insertSeparators s = s.
Proof.
  unfold insertSeparators. destruct s as [|c s]; [reflexivity|].
  cbn [insertSeparatorsFrom String.length andb]. intros Hlen.
  now rewrite insertSeparatorsFrom_short by lia.
Qed.

(** X3. A text of at most three characters is left as it is by
    [addCommas]: the first separator needs a fourth character. *)
Theorem addCommas_short_text_unchanged :
  forall s : string, (String.length s <= 3)%nat -> addCommas s = s.
Proof.
  intros s Hlen. destruct (addCommas_view s) as (p0 & t & Hs & Ha & Hp0).
  rewrite Ha, insertSeparators_short by lia. now symmetry.
Qed.

Lemma addCommas_short_text_unchanged_witness :
  addCommas "999" = "999" /\ addCommas "1000" = "1,000".
Proof.
  split; [|reflexivity].
  apply (addCommas_short_text_unchanged "999"). simpl. lia.
Defined.

(** ** The groups of a grouped number *)

Lemma isDigit_not_comma c : isDigit c = true -> (c =? ",")%char = false.
Proof.
  intros H. destruct (Ascii.eqb_spec c ","%char) as [->|]; [discriminate H | reflexivity].
Qed.

Lemma commaGroups_not_nil s : commaGroups s <> [].
Proof.
  destruct s as [|c s]; simpl; [discriminate|].
  destruct (c =? ",")%char; [discriminate|]. destruct (commaGroups s); discriminate.
Qed.

Lemma length_concat_groups gs :
  Forall (fun g => String.length g = 3%nat) gs ->
  String.length (String.concat "" gs) = (3 * List.length gs)%nat.
Proof.
  induction 1 as [|g gs Hg HF IH]; [reflexivity|].
  destruct gs as [|g' gs']; [simpl; lia|].
  change (String.concat "" (g :: g' :: gs'))
    with (g ++ "" ++ String.concat "" (g' :: gs')).
  cbn [append]. rewrite length_append, IH, Hg. simpl. lia.
Qed.

Lemma concat_cons g gs : String.concat "" (g :: gs) = g ++ String.concat "" gs.
Proof. destruct gs; simpl; [now rewrite append_nil_r | reflexivity]. Qed.

(** The groups of [groupFromRight]: a first group of one to three digits,
    then groups of exactly three, which put together give back the digits. *)
Lemma groupFromRight_groups s :
  allDigits s = true -> s <> "" ->
  exists g0 gs,
    commaGroups (groupFromRight s) = g0 :: gs /\
    (1 <= String.length g0 <= 3)%nat /\
    Forall (fun g => String.length g = 3%nat) gs /\
    String.concat "" (g0 :: gs) = s.
Proof.
  induction s as [|c s IH]; [intros _ H; now destruct H|].
  intros Hall _. simpl in Hall. apply andb_prop in Hall as [Hc Hs].
  rewrite groupFromRight_cons.
  destruct s as [|d s'].
  - exists (String c ""), []. cbn. rewrite (isDigit_not_comma _ Hc).
    repeat split; auto; lia.
  - destruct (IH Hs ltac:(discriminate)) as (g0 & gs & Hg & Hlen & HF & Hcat).
    set (s := String d s') in *.
    assert (Hsl : String.length s = (String.length g0 + 3 * List.length gs)%nat).
    { rewrite <- Hcat, concat_cons, length_append, length_concat_groups by assumption.
      reflexivity. }
    assert (Hb : groupBoundary (String.length s) = (String.length g0 =? 3)%nat).
    { unfold groupBoundary. rewrite Hsl.
      replace (String.length g0 + 3 * List.length gs)%nat
        with (String.length g0 + List.length gs * 3)%nat by lia.
      rewrite Nat.Div0.mod_add.
      destruct (String.length g0) as [|[|[|[|n]]]]; try lia; reflexivity. }
    rewrite Hb. destruct (Nat.eqb_spec (String.length g0) 3) as [H3|H3].
    + exists (String c ""), (g0 :: gs).
      cbn [append commaGroups Ascii.eqb Bool.eqb]. rewrite (isDigit_not_comma _ Hc).
      change (("," =? ",")%char) with true. cbn iota. rewrite Hg.
      repeat split; auto; try (simpl; lia).
      rewrite concat_cons, Hcat. reflexivity.
    + exists (String c g0), gs.
      cbn [append commaGroups]. rewrite (isDigit_not_comma _ Hc), Hg.
      repeat split; auto; try (simpl; lia).
      rewrite concat_cons in *. simpl. now rewrite Hcat.
Qed.

(** X4. On a number of one or more digits, the commas of [addCommas] cut
    a first group of one to three digits and then groups of exactly three
    digits; the groups put together are the digits of the number. *)
Theorem addCommas_groups_of_three :
  forall s : string,
    allDigits s = true -> s <> "" ->
    exists g0 gs,
      commaGroups (addCommas s) = g0 :: gs /\
      (1 <= String.length g0 <= 3)%nat /\
      Forall (fun g => String.length g = 3%nat) gs /\
      String.concat "" (g0 :: gs) = s.
Proof.
  intros s Hall Hne. rewrite addCommas_digits by assumption.
  now apply groupFromRight_groups.
Qed.

Lemma addCommas_groups_of_three_witness :
  commaGroups (addCommas "1234567") = ["1"; "234"; "567"] /\
  exists g0 gs,
    commaGroups (addCommas "1234567") = g0 :: gs /\
    (1 <= String.length g0 <= 3)%nat /\
    Forall (fun g => String.length g = 3%nat) gs /\
    String.concat "" (g0 :: gs) = "1234567".
Proof.
  split; [reflexivity|].
  apply (addCommas_groups_of_three "1234567"); [reflexivity | discriminate].
Defined.

(** ** The parser on any raw input *)

Lemma formatForDisplay_strip p s :
  formatForDisplay p (stripNonNumeric s) = formatForDisplay p s.
Proof. unfold formatForDisplay. now rewrite stripNonNumeric_idem. Qed.

Lemma cleanInput_strip p s : cleanInput p (stripNonNumeric s) = cleanInput p s.
Proof. unfold cleanInput. now rewrite stripNonNumeric_idem. Qed.

(** X5. Characters other than digits and the decimal point have no effect
    on a change event: the new state and the reported number are those of
    the input with these characters removed. *)
Theorem handleChange_ignores_other_characters :
  forall (p : FormattedInputProps) (st : ComponentState) (input : string),
    handleChange p st input = handleChange p st (stripNonNumeric input).
Proof.
  intros p st input. unfold handleChange. now rewrite cleanInput_strip.
Qed.

Lemma cleanInput_of_canonical p ip fp :
  allDigits ip = true -> optDigits fp = true ->
  cleanInput p (canonical ip fp) = canonical ip (if showCents p then fp else None).
Proof.
  intros Hip Hfp.
  rewrite (cleanInput_segments p _ ip (match fp with Some f => [f] | None => [] end)).
  - unfold keptFraction. destruct (showCents p), fp; reflexivity.
  - rewrite stripNonNumeric_id by now apply canonical_numeric.
    now apply split_canonical.
Qed.

(** X6. The canonical string of the parser is a run of digits, followed
    with [showCents] only by at most one point and a second run of digits;
    parsing it again changes nothing. *)
Theorem cleanInput_canonical_and_idempotent :
  forall (p : FormattedInputProps) (raw : string),
    (exists ip fp,
       allDigits ip = true /\ optDigits fp = true /\
       cleanInput p raw = canonical ip (if showCents p then fp else None)) /\
    cleanInput p (cleanInput p raw) = cleanInput p raw.
Proof.
  intros p raw.
  destruct (cleanInput_canonical p raw) as (ip & fp & Hip & Hfp & Hnone & E).
  assert (Hfp' : (if showCents p then fp else None) = fp).
  { destruct (showCents p); [reflexivity | now rewrite Hnone]. }
  split.
  - exists ip, fp. rewrite Hfp'. auto.
  - rewrite E, cleanInput_of_canonical by assumption. now rewrite Hfp'.
Qed.

Lemma stripNonNumeric_noPoint a :
  noPoint a = true -> allDigits (stripNonNumeric a) = true.
Proof.
  induction a as [|c a IH]; simpl; [reflexivity|].
  intros [Hc Ha]%andb_prop. apply negb_true_iff in Hc.
  unfold isNumericChar. rewrite Hc, orb_false_r.
  destruct (isDigit c) eqn:Hd; simpl; [rewrite Hd|]; auto.
Qed.

(** X7. With [showCents] off the parser drops everything from the first
    decimal point on. *)
Theorem cleanInput_without_cents_stops_at_point :
  forall (p : FormattedInputProps) (a r : string),
    showCents p = false -> noPoint a = true ->
    cleanInput p (a ++ "." ++ r) = stripNonNumeric a.
Proof.
  intros p a r Hc Ha. pose proof (stripNonNumeric_noPoint a Ha) as Hd.
  rewrite (cleanInput_segments p _ (stripNonNumeric a) (split (stripNonNumeric r))).
  - unfold keptFraction. now rewrite Hc.
  - rewrite stripNonNumeric_app.
    change (stripNonNumeric ("." ++ r)) with ("." ++ stripNonNumeric r).
    now apply split_digits_point.
Qed.

Lemma cleanInput_without_cents_stops_at_point_witness :
  cleanInput (defaultProps 0) "$1,234.56.7" = "1234".
Proof.
  apply (cleanInput_without_cents_stops_at_point (defaultProps 0) "$1,234" "56.7");
    reflexivity.
Defined.

(** X8. With [showCents] on the parser keeps the text up to the second
    decimal point and drops that point and everything after it. *)
Theorem cleanInput_with_cents_stops_at_second_point :
  forall (p : FormattedInputProps) (a b r : string),
    showCents p = true -> noPoint a = true -> noPoint b = true ->
    cleanInput p (a ++ "." ++ b ++ "." ++ r) =
      stripNonNumeric a ++ "." ++ stripNonNumeric b.
Proof.
  intros p a b r Hc Ha Hb.
  pose proof (stripNonNumeric_noPoint a Ha) as Hda.
  pose proof (stripNonNumeric_noPoint b Hb) as Hdb.
  rewrite (cleanInput_segments p _ (stripNonNumeric a)
             (stripNonNumeric b :: split (stripNonNumeric r))).
  - unfold keptFraction. now rewrite Hc.
  - rewrite stripNonNumeric_app.
    change (stripNonNumeric ("." ++ b ++ "." ++ r))
      with ("." ++ stripNonNumeric (b ++ "." ++ r)).
    rewrite stripNonNumeric_app.
    change (stripNonNumeric ("." ++ r)) with ("." ++ stripNonNumeric r).
    now rewrite !split_digits_point.
Qed.

Lemma cleanInput_with_cents_stops_at_second_point_witness :
  cleanInput (propsWith 0 0 100 true true) "$1,234.5x6.78.9" = "1234.56".
Proof.
  apply (cleanInput_with_cents_stops_at_second_point
           (propsWith 0 0 100 true true) "$1,234" "5x6" "78.9"); reflexivity.
Defined.

(** ** The display of a change event *)

Lemma shown_eq p input : shown p input = formatForDisplay p (cleanInput p input).
Proof. unfold shown. now rewrite handleChange_display. Qed.

Lemma displayValue_handleChange p st input :
  displayValue (fst (handleChange p st input)) = shown p input.
Proof. now rewrite handleChange_display, shown_eq. Qed.

(** What the display of a change event keeps of the input. *)
Lemma stripNonNumeric_shown p input ip rest :
  split (stripNonNumeric input) = ip :: rest ->
  stripNonNumeric (shown p input) =
    if (cleanInput p input =? "") then ""
    else canonical ip (shownFraction p (keptFraction p rest)).
Proof.
  intros E. rewrite shown_eq, (cleanInput_segments p input ip rest E).
  pose proof (split_allNumeric _ (stripNonNumeric_allNumeric input)) as HF.
  rewrite E in HF. inversion HF as [|? ? Hip Hrest]; subst.
  apply stripNonNumeric_formatForDisplay_canonical; [assumption|].
  unfold keptFraction. destruct (showCents p); auto using hd_error_digits.
Qed.

(** X9. The display of a change event is stable: fed back as the input of
    a change event, as when the field's text is submitted unchanged, it
    gives the same display. *)
Theorem display_stable_under_resubmission :
  forall (p : FormattedInputProps) (st st' : ComponentState) (input : string),
    displayValue
      (fst (handleChange p st' (displayValue (fst (handleChange p st input)))))
    = displayValue (fst (handleChange p st input)).
Proof.
  intros p st st' input. rewrite !displayValue_handleChange.
  destruct (numeric_view _ (stripNonNumeric_allNumeric input))
    as (ip & rest & E & _ & Hip & Hrest).
  pose proof (stripNonNumeric_shown p input ip rest E) as Hs.
  assert (Hk : optDigits (keptFraction p rest) = true).
  { unfold keptFraction. destruct (showCents p); auto using hd_error_digits. }
  rewrite (shown_eq p (shown p input)), <- cleanInput_strip, Hs.
  destruct (String.eqb_spec (cleanInput p input) "") as [He|Hne].
  - rewrite shown_eq, He. unfold cleanInput. simpl.
    destruct (showCents p); reflexivity.
  - rewrite cleanInput_of_canonical by auto using shownFraction_digits.
    replace (if showCents p then shownFraction p (keptFraction p rest) else None)
      with (shownFraction p (keptFraction p rest))
      by (unfold shownFraction; destruct (showCents p); reflexivity).
    assert (Hs' : canonical ip (shownFraction p (keptFraction p rest))
                  = stripNonNumeric (shown p input)).
    { rewrite Hs. destruct (String.eqb_spec (cleanInput p input) "");
        [contradiction | reflexivity]. }
    rewrite Hs', formatForDisplay_strip, shown_eq.
    apply formatForDisplay_twice_on_cleanInput.
Qed.

(** X10. The display of a change event shows no digit or point that was
    not typed, and none out of place: its digits and points are an initial
    part of the digits and points of the input. *)
Theorem display_keeps_a_prefix_of_the_input :
  forall (p : FormattedInputProps) (st : ComponentState) (input : string),
    exists dropped : string,
      stripNonNumeric input =
        stripNonNumeric (displayValue (fst (handleChange p st input))) ++ dropped.
Proof.
  intros p st input. rewrite displayValue_handleChange.
  destruct (numeric_view _ (stripNonNumeric_allNumeric input))
    as (ip & rest & E & Hjoin & Hip & Hrest).
  rewrite (stripNonNumeric_shown p input ip rest E).
  destruct (cleanInput p input =? ""); [now exists (stripNonNumeric input)|].
  rewrite Hjoin, join_cons. unfold shownFraction, keptFraction.
  destruct (showCents p); cbn [canonical option_map].
  - destruct rest as [|f rest']; cbn [hd_error option_map canonical].
    + exists "". reflexivity.
    + rewrite join_cons. destruct (slice0_split 2 f) as (r & Hf & _).
      exists (r ++ match rest' with [] => "" | _ :: _ => "." ++ join rest' end).
      rewrite Hf at 1. now rewrite !append_assoc.
  - eexists. reflexivity.
Qed.

(** ** The number of a change event *)

Lemma spanDigits_fst_digits s : allDigits (fst (spanDigits s)) = true.
Proof.
  induction s as [|c s IH]; simpl; [reflexivity|].
  destruct (isDigit c) eqn:Hc; [|reflexivity].
  destruct (spanDigits s) as [d r]. simpl in *. now rewrite Hc.
Qed.

Lemma parseFloat_nonneg s x : parseFloat s = Some x -> 0 <= x.
Proof.
  unfold parseFloat. pose proof (spanDigits_fst_digits s) as Hip.
  destruct (spanDigits s) as [ip rest]. cbn [fst] in Hip.
  set (fp := match rest with
             | String c r => if (c =? ".")%char then fst (spanDigits r) else ""
             | EmptyString => ""
             end).
  assert (Hfp : allDigits fp = true).
  { unfold fp. destruct rest as [|c r]; [reflexivity|].
    destruct (c =? ".")%char; [apply spanDigits_fst_digits | reflexivity]. }
  destruct (ip ++ fp =? ""); [discriminate|]. intros [= <-].
  assert (H : allDigits (ip ++ fp) = true) by now rewrite allDigits_app, Hip, Hfp.
  pose proof (digitsToZ_bounds _ H). unfold Qle. cbn [Qnum Qden]. lia.
Qed.

Lemma parseFloat_some_nonempty s x : parseFloat s = Some x -> s <> "".
Proof. intros H ->. discriminate H. Qed.

(** X11. Whatever the bounds, a change event on a canonical string that is
    not empty never reports a number above [maxValue]. *)
Theorem reported_value_never_above_maximum :
  forall (p : FormattedInputProps) (st : ComponentState) (input : string) (v : Q),
    cleanInput p input <> "" ->
    snd (handleChange p st input) = Some v ->
    v <= maxValue p.
Proof.
  intros p st input v Hne. rewrite handleChange_reported.
  destruct (parseFloat (cleanInput p input)) as [x|] eqn:Hx.
  - rewrite (reported_parsed _ _ x Hne Hx). intros [= <-]. cbv zeta.
    assert (H : Math_min (maxValue p) (Math_max (minValue p) x) <= maxValue p)
      by apply Q.le_min_l.
    destruct (showCents p); [assumption|].
    eapply Qle_trans; [apply Qfloor_le | exact H].
  - rewrite (reported_unparsed _ _ Hne Hx). discriminate.
Qed.

Lemma reported_value_never_above_maximum_witness :
  let p := propsWith 0 10 5 true true in
  snd (handleChange p initialState "7") = Some 5 /\ 5 <= maxValue p.
Proof.
  cbv zeta. split; [reflexivity|].
  apply (reported_value_never_above_maximum (propsWith 0 10 5 true true)
           initialState "7" 5); [discriminate | reflexivity].
Defined.

(** X12. The parser drops the minus sign, so no negative number is ever
    reported unless [maxValue] itself is negative: a negative [minValue]
    does not make negative amounts enterable. *)
Theorem reported_value_never_negative :
  forall (p : FormattedInputProps) (st : ComponentState) (input : string) (v : Q),
    0 <= maxValue p ->
    snd (handleChange p st input) = Some v ->
    0 <= v.
Proof.
  intros p st input v Hmax. rewrite handleChange_reported.
  destruct (String.eqb_spec (cleanInput p input) "") as [He|Hne].
  - rewrite (reported_empty _ _ He). intros [= <-]. apply Qle_refl.
  - destruct (parseFloat (cleanInput p input)) as [x|] eqn:Hx.
    + rewrite (reported_parsed _ _ x Hne Hx). intros [= <-]. cbv zeta.
      pose proof (parseFloat_nonneg _ _ Hx) as H0.
      assert (H : 0 <= Math_min (maxValue p) (Math_max (minValue p) x)).
      { unfold Math_min, Math_max. apply Q.min_glb; [assumption|].
        eapply Qle_trans; [exact H0 | apply Q.le_max_r]. }
      destruct (showCents p); [assumption|].
      unfold Math_floor. change 0 with (inject_Z 0). rewrite <- Zle_Qle.
      rewrite <- (Qfloor_Z 0). now apply Qfloor_resp_le.
    + rewrite (reported_unparsed _ _ Hne Hx). discriminate.
Qed.

Lemma reported_value_never_negative_witness :
  let p := propsWith 0 (-100) 100 true true in
  snd (handleChange p initialState "-12.5") = Some (125 # 10) /\ 0 <= 125 # 10.
Proof.
  cbv zeta. split; [reflexivity|].
  apply (reported_value_never_negative (propsWith 0 (-100) 100 true true)
           initialState "-12.5" (125 # 10)); [discriminate | reflexivity].
Defined.

(** The rounding policy of [handleChange]. *)
Lemma policy_compat (cents : bool) x y :
  x == y ->
  (if cents then x else Math_floor x) == (if cents then y else Math_floor y).
Proof.
  intros H. destruct cents; [assumption|]. unfold Math_floor. now rewrite H.
Qed.

(** X13. A parsed number that lies between the bounds is reported as it
    is with [showCents], and floored without: clamping does not disturb
    it. *)
Theorem in_range_value_passes_through :
  forall (p : FormattedInputProps) (st : ComponentState) (input : string) (x : Q),
    parseFloat (cleanInput p input) = Some x ->
    minValue p <= x <= maxValue p ->
    exists v : Q,
      snd (handleChange p st input) = Some v /\
      v == (if showCents p then x else Math_floor x).
Proof.
  intros p st input x Hx [Hlo Hhi]. rewrite handleChange_reported.
  rewrite (reported_parsed _ _ x (parseFloat_some_nonempty _ _ Hx) Hx).
  eexists. split; [reflexivity|]. cbv zeta. apply policy_compat.
  unfold Math_min, Math_max.
  rewrite (Q.max_r _ _ Hlo). now apply Q.min_r.
Qed.

Lemma in_range_value_passes_through_witness :
  exists v : Q,
    snd (handleChange (propsWith 0 (1 # 2) 100 false true) initialState "12.9")
      = Some v /\ v == 12.
Proof.
  apply (in_range_value_passes_through (propsWith 0 (1 # 2) 100 false true)
           initialState "12.9" 12); [reflexivity | split; discriminate].
Defined.

(** X14. With ordered bounds, a parsed number above [maxValue] is reported
    as [maxValue] and one below [minValue] as [minValue], floored when
    [showCents] is off. *)
Theorem out_of_range_value_saturates :
  forall (p : FormattedInputProps) (st : ComponentState) (input : string) (x : Q),
    minValue p <= maxValue p ->
    parseFloat (cleanInput p input) = Some x ->
    ~ (minValue p <= x <= maxValue p) ->
    exists v : Q,
      snd (handleChange p st input) = Some v /\
      v == (let bound := if Qlt_le_dec x (minValue p) then minValue p
                         else maxValue p in
            if showCents p then bound else Math_floor bound).
Proof.
  intros p st input x Hb Hx Hout. rewrite handleChange_reported.
  rewrite (reported_parsed _ _ x (parseFloat_some_nonempty _ _ Hx) Hx).
  eexists. split; [reflexivity|]. cbv zeta. apply policy_compat.
  unfold Math_min, Math_max.
  destruct (Qlt_le_dec x (minValue p)) as [Hlt|Hge].
  - rewrite (Q.max_l (minValue p) x) by now apply Qlt_le_weak.
    now apply Q.min_r.
  - assert (Hgt : maxValue p < x).
    { apply Qnot_le_lt. intros Hle. apply Hout. now split. }
    rewrite (Q.max_r _ _ Hge). apply Q.min_l. now apply Qlt_le_weak.
Qed.

Lemma out_of_range_value_saturates_witness :
  exists v : Q,
    snd (handleChange (propsWith 0 10 100 true true) initialState "500") = Some v /\
    v == 100.
Proof.
  apply (out_of_range_value_saturates (propsWith 0 10 100 true true)
           initialState "500" 500); [discriminate | reflexivity |].
  intros [_ H]. apply H. reflexivity.
Defined.

(** X15. A change event leaves [setValue] uncalled in one case only: when
    its canonical string is the bare decimal point. *)
Theorem setValue_skipped_only_on_bare_point :
  forall (p : FormattedInputProps) (st : ComponentState) (input : string),
    snd (handleChange p st input) = None <-> cleanInput p input = ".".
Proof.
  intros p st input. rewrite handleChange_reported. split.
  - intros H. destruct (String.eqb_spec (cleanInput p input) "") as [He|Hne].
    + rewrite (reported_empty _ _ He) in H. discriminate.
    + destruct (parseFloat (cleanInput p input)) as [x|] eqn:Hx.
      * rewrite (reported_parsed _ _ x Hne Hx) in H. discriminate.
      * apply (unparsable_is_point p input Hne Hx).
  - intros H. apply reported_unparsed; rewrite H; [discriminate | reflexivity].
Qed.

(** ** The display effect *)

(** X16. The display effect is idempotent: run again on its own result,
    with the same props, it changes nothing, whatever the formatter. *)
Theorem displayEffect_idempotent :
  forall (F : IntlNumberFormat) (p : FormattedInputProps) (st : ComponentState),
    displayEffect p (displayEffect p st) = displayEffect p st.
Proof.
  intros F p st. unfold displayEffect, setDisplayValue.
  destruct (isFocused st), (Qeq_bool (value p) 0),
    (String.eqb_spec (displayValue st) "");
    cbn [displayValue isFocused negb andb String.eqb];
    try reflexivity;
    destruct (String.eqb_spec (intlFormat (formatterOptions p) (value p)) "") as [->|];
    reflexivity.
Qed.

Lemma focus_blur_cycle_zero_witness :
  displayEffect (F := enUS) (defaultProps 0)
    (handleBlur (F := enUS) (defaultProps 0)
       (displayEffect (F := enUS) (defaultProps 0)
          (handleFocus (F := enUS) (defaultProps 0) initialState)))
  = {| displayValue := "$0"; isFocused := false |}.
Proof.
  apply (focus_blur_cycle_zero (F := enUS) (defaultProps 0) initialState);
    [reflexivity | discriminate | discriminate].
Defined.

Lemma groupFromRight_not_nil s : s <> "" -> groupFromRight s <> "".
Proof.
  destruct s as [|c s]; [intros H; now destruct H|].
  intros _. rewrite groupFromRight_cons. discriminate.
Qed.

Lemma append_not_nil_l a b : a <> "" -> a ++ b <> "".
Proof. destruct a; [intros H; now destruct H | discriminate]. Qed.

Lemma append_not_nil_r a b : b <> "" -> a ++ b <> "".
Proof. intros Hb H. apply append_eq_nil in H as [_ H]. contradiction. Qed.

(** A canonical string that is not empty never formats to the empty
    string. *)
Lemma shown_not_nil p input : cleanInput p input <> "" -> shown p input <> "".
Proof.
  rewrite shown_eq.
  destruct (cleanInput_canonical p input) as (ip & fp & Hip & Hfp & Hnone & ->).
  intros Hne. rewrite formatForDisplay_canonical by assumption.
  destruct (String.eqb_spec (canonical ip fp) ""); [contradiction|].
  apply append_not_nil_r.
  destruct ip as [|c ip'].
  - destruct fp as [f|]; [|now destruct Hne].
    destruct (showCents p) eqn:Hc; [|now specialize (Hnone eq_refl)].
    unfold fractionSuffix. rewrite Hc. discriminate.
  - apply append_not_nil_l, groupFromRight_not_nil. discriminate.
Qed.

(** X18. Once the owner stores the number a change event reported and the
    effect runs on it, the display typed so far is replaced by the
    formatter's rendering of that number; only an emptied field stays
    empty. *)
Theorem effect_replaces_typed_display :
  forall (F : IntlNumberFormat) (p : FormattedInputProps) (st : ComponentState)
         (input : string) (v : Q),
    snd (handleChange p st input) = Some v ->
    displayValue (displayEffect (withValue p v) (fst (handleChange p st input))) =
      if (cleanInput p input =? "") then ""
      else intlFormat (formatterOptions p) v.
Proof.
  intros F p st input v Hv. unfold displayEffect.
  cbn [setDisplayValue displayValue isFocused]. rewrite displayValue_handleChange.
  change (value (withValue p v)) with v.
  change (formatterOptions (withValue p v)) with (formatterOptions p).
  rewrite handleChange_reported in Hv.
  destruct (String.eqb_spec (cleanInput p input) "") as [He|Hne].
  - rewrite (reported_empty _ _ He) in Hv. injection Hv as <-.
    rewrite shown_eq, He.
    replace (formatForDisplay p "") with "" by reflexivity.
    cbn. destruct (negb (isFocused (fst (handleChange p st input)))); reflexivity.
  - pose proof (shown_not_nil p input Hne) as Hs.
    destruct (String.eqb_spec (shown p input) ""); [contradiction|].
    rewrite !andb_false_r. reflexivity.
Qed.

Lemma effect_replaces_typed_display_witness :
  let p := propsWith 0 0 100 true true in
  displayValue (fst (handleChange p initialState "12.999")) = "$12.99" /\
  displayValue
    (displayEffect (F := enUS) (withValue p (12999 # 1000))
       (fst (handleChange p initialState "12.999"))) = "$13.00".
Proof.
  cbv zeta. split; [reflexivity|].
  apply (effect_replaces_typed_display enUS (propsWith 0 0 100 true true)
           initialState "12.999" (12999 # 1000)). reflexivity.
Defined.
